(** * gufe.custom_codecs: the JSON codecs of gufe, embedded in Rocq

    The development follows [src/gufe/custom_codecs.py].  Python values
    are an inductive type, dictionaries are finite maps from strings to
    values, exceptions are an explicit outcome, and the two functions
    that copy and then mutate their argument run over a store of
    dictionary objects so that aliasing is visible. *)

From Stdlib Require Import ZArith NArith List Lia.
From Stdlib.Strings Require Import Byte Ascii String.
From stdpp Require Import base option list gmap strings numbers.

Local Open Scope Z_scope.
Set Warnings "-register-all".

(** ** Python strings and bytes *)

(** A Python [str] is a sequence of Unicode code points, a [bytes]
    object a sequence of 8-bit bytes. *)
Abbreviation str := (list N).
Abbreviation bytes := (list byte).

(** A string literal of the source, as a Python [str]. *)
Definition lit (s : string) : str :=
  map N_of_ascii (list_ascii_of_string s).

(** ** Exceptions and outcomes *)

(** The exceptions the modelled code can raise.
    [MalformedCanonicalDict] is the decode error named by the
    specification; nothing in [custom_codecs.py] raises it. *)
Inductive exn :=
| KeyError (key : str)
| TypeError
| ValueError
| AttributeError
| UnicodeEncodeError
| MalformedCanonicalDict.

(** The result of running a piece of Python: a value, a raised
    exception, or [NotModelled] when the operands leave the fragment of
    Python, numpy and pint that this development describes. *)
Inductive outcome (A : Type) :=
| Return (a : A)
| Raise (e : exn)
| NotModelled.
Arguments Return {A} a.
Arguments Raise {A} e.
Arguments NotModelled {A}.

#[global] Instance outcome_ret : MRet outcome := @Return.
#[global] Instance outcome_bind : MBind outcome := λ A B f m,
  match m with
  | Return a => f a
  | Raise e => Raise e
  | NotModelled => NotModelled
  end.

(** ** The latin-1 text codec of Python *)

(** [b.decode('latin-1')]: byte [n] becomes code point [n]. *)
Definition latin1_decode (b : bytes) : str := map Byte.to_N b.

(** [s.encode('latin-1')]: code point [n < 256] becomes byte [n];
    any other code point raises [UnicodeEncodeError]. *)
Fixpoint latin1_encode (s : str) : outcome bytes :=
  match s with
  | [] => Return []
  | c :: s' =>
      match Byte.of_N c with
      | Some b => bs ← latin1_encode s'; Return (b :: bs)
      | None => Raise UnicodeEncodeError
      end
  end.

(** ** numpy: element types, arrays, [tobytes], [frombuffer], [reshape]

    The fragment of numpy the array codec runs on: the numeric element
    types of fixed width, arrays given by their logical (row-major)
    content, and the three library calls of the codec.  [host] is the
    native byte order of the platform the interpreter runs on. *)

Inductive byteorder := LittleEndian | BigEndian.

Definition opposite (o : byteorder) : byteorder :=
  match o with LittleEndian => BigEndian | BigEndian => LittleEndian end.

Inductive kind := KBool | KInt | KUInt | KFloat | KComplex.

Inductive scalar :=
| Bool8
| Int8 | Int16 | Int32 | Int64
| UInt8 | UInt16 | UInt32 | UInt64
| Float16 | Float32 | Float64
| Complex64 | Complex128.

#[global] Instance byteorder_eq_dec : EqDecision byteorder.
Proof. solve_decision. Defined.
#[global] Instance kind_eq_dec : EqDecision kind.
Proof. solve_decision. Defined.
#[global] Instance scalar_eq_dec : EqDecision scalar.
Proof. solve_decision. Defined.

Definition all_scalars : list scalar :=
  [Bool8; Int8; Int16; Int32; Int64; UInt8; UInt16; UInt32; UInt64;
   Float16; Float32; Float64; Complex64; Complex128].

Definition scalar_kind (s : scalar) : kind :=
  match s with
  | Bool8 => KBool
  | Int8 | Int16 | Int32 | Int64 => KInt
  | UInt8 | UInt16 | UInt32 | UInt64 => KUInt
  | Float16 | Float32 | Float64 => KFloat
  | Complex64 | Complex128 => KComplex
  end.

(** Width of one element in bytes ([dtype.itemsize]). *)
Definition scalar_size (s : scalar) : nat :=
  match s with
  | Bool8 | Int8 | UInt8 => 1
  | Int16 | UInt16 | Float16 => 2
  | Int32 | UInt32 | Float32 => 4
  | Int64 | UInt64 | Float64 | Complex64 => 8
  | Complex128 => 16
  end%nat.

(** [dtype.name]. *)
Definition scalar_name (s : scalar) : string :=
  match s with
  | Bool8 => "bool"
  | Int8 => "int8" | Int16 => "int16" | Int32 => "int32" | Int64 => "int64"
  | UInt8 => "uint8" | UInt16 => "uint16" | UInt32 => "uint32"
  | UInt64 => "uint64"
  | Float16 => "float16" | Float32 => "float32" | Float64 => "float64"
  | Complex64 => "complex64" | Complex128 => "complex128"
  end.

(** Kind character and size of the array-protocol type string
    ([dtype.str] without its byte-order character). *)
Definition scalar_code (s : scalar) : string :=
  match s with
  | Bool8 => "b1"
  | Int8 => "i1" | Int16 => "i2" | Int32 => "i4" | Int64 => "i8"
  | UInt8 => "u1" | UInt16 => "u2" | UInt32 => "u4" | UInt64 => "u8"
  | Float16 => "f2" | Float32 => "f4" | Float64 => "f8"
  | Complex64 => "c8" | Complex128 => "c16"
  end.

Definition order_char (o : byteorder) : string :=
  match o with LittleEndian => "<" | BigEndian => ">" end.

(** A dtype: an element type and whether its byte order is the
    opposite of the host's ([not dtype.isnative]).  One-byte types
    have no byte order and are never swapped. *)
Record dtype := Dtype { dt_scalar : scalar; dt_swapped : bool }.

Definition itemsize (d : dtype) : nat := scalar_size (dt_scalar d).

Definition dtype_wf (d : dtype) : Prop :=
  itemsize d = 1%nat → dt_swapped d = false.

(** The byte order in which the elements of a [d] array lie in memory. *)
Definition dtype_order (host : byteorder) (d : dtype) : byteorder :=
  if dt_swapped d then opposite host else host.

(** [str(dtype)]: the name for a native dtype, the type string with
    its byte-order character otherwise. *)
Definition dtype_str (host : byteorder) (d : dtype) : str :=
  if dt_swapped d
  then lit (order_char (opposite host) ++ scalar_code (dt_scalar d))
  else lit (scalar_name (dt_scalar d)).

(** The strings [np.dtype] is modelled on: the names, and the type
    strings with an explicit byte-order character.  An order equal to
    the host's, or any order on a one-byte type, gives the native
    dtype. *)
Definition dtype_table (host : byteorder) : list (str * dtype) :=
  flat_map (λ s,
    [ (lit (scalar_name s), Dtype s false);
      (lit (order_char host ++ scalar_code s), Dtype s false);
      (lit (order_char (opposite host) ++ scalar_code s),
       Dtype s (negb (scalar_size s =? 1)%nat)) ])
    all_scalars.

Fixpoint assoc {A} (k : str) (t : list (str * A)) : option A :=
  match t with
  | [] => None
  | (k', a) :: t' => if decide (k = k') then Some a else assoc k t'
  end.

(** [np.dtype(s)] for a string [s]. *)
Definition np_dtype (host : byteorder) (s : str) : outcome dtype :=
  match assoc s (dtype_table host) with
  | Some d => Return d
  | None => NotModelled
  end.

(** An array: its dtype, its shape, and its elements in row-major
    order.  An element is an integer: the value itself for the integer
    and boolean types, the IEEE-754 bit pattern for a float, and for a
    complex number the bit pattern of the real part plus
    [2^(8*c)] times that of the imaginary part, [c] bytes each. *)
Record ndarray := NDArray {
  arr_dtype : dtype;
  arr_shape : list Z;
  arr_data : list Z
}.

Definition product (dims : list Z) : Z := foldr Z.mul 1 dims.

Definition in_range (d : dtype) (v : Z) : Prop :=
  let bits := 8 * Z.of_nat (itemsize d) in
  match scalar_kind (dt_scalar d) with
  | KInt => - 2 ^ (bits - 1) ≤ v < 2 ^ (bits - 1)
  | _ => 0 ≤ v < 2 ^ bits
  end.

Definition max_ndim : nat := 32.
Definition intp_max : Z := 2 ^ 63.

Definition ndarray_wf (a : ndarray) : Prop :=
  dtype_wf (arr_dtype a)
  ∧ (length (arr_shape a) ≤ max_ndim)%nat
  ∧ Forall (λ n, 0 ≤ n < intp_max) (arr_shape a)
  ∧ Z.of_nat (length (arr_data a)) = product (arr_shape a)
  ∧ Forall (in_range (arr_dtype a)) (arr_data a).

(** *** Elements as bytes *)

Definition byte_of_Z (z : Z) : byte :=
  default x00 (Byte.of_N (Z.to_N (z mod 256))).

Definition Z_of_byte (b : byte) : Z := Z.of_N (Byte.to_N b).

(** The [n] low-order bytes of [v], least significant first. *)
Fixpoint le_bytes (n : nat) (v : Z) : bytes :=
  match n with
  | O => []
  | S n' => byte_of_Z v :: le_bytes n' (v / 256)
  end.

Fixpoint le_value (b : bytes) : Z :=
  match b with
  | [] => 0
  | x :: b' => Z_of_byte x + 256 * le_value b'
  end.

Definition word_bytes (o : byteorder) (n : nat) (v : Z) : bytes :=
  match o with
  | LittleEndian => le_bytes n v
  | BigEndian => rev (le_bytes n v)
  end.

Definition word_value (o : byteorder) (b : bytes) : Z :=
  match o with
  | LittleEndian => le_value b
  | BigEndian => le_value (rev b)
  end.

(** The bytes of one element: a word in the given order; a complex
    number is its real part followed by its imaginary part, each a
    word in the given order. *)
Definition item_bytes (o : byteorder) (d : dtype) (v : Z) : bytes :=
  match scalar_kind (dt_scalar d) with
  | KComplex =>
      let c := (itemsize d / 2)%nat in
      word_bytes o c v ++ word_bytes o c (v / 256 ^ Z.of_nat c)
  | _ => word_bytes o (itemsize d) v
  end.

Definition item_value (o : byteorder) (d : dtype) (b : bytes) : Z :=
  match scalar_kind (dt_scalar d) with
  | KComplex =>
      let c := (itemsize d / 2)%nat in
      word_value o (take c b) + 256 ^ Z.of_nat c * word_value o (drop c b)
  | KInt =>
      let u := word_value o b in
      let bits := 8 * Z.of_nat (itemsize d) in
      if decide (u < 2 ^ (bits - 1)) then u else u - 2 ^ bits
  | _ => word_value o b
  end.

(** [a.tobytes()]: the elements in row-major order, each in the byte
    order of the array's dtype. *)
Definition tobytes (host : byteorder) (a : ndarray) : bytes :=
  flat_map (item_bytes (dtype_order host (arr_dtype a)) (arr_dtype a))
           (arr_data a).

Fixpoint read_items (o : byteorder) (d : dtype) (count : nat) (b : bytes)
  : list Z :=
  match count with
  | O => []
  | S k =>
      item_value o d (take (itemsize d) b)
      :: read_items o d k (drop (itemsize d) b)
  end.

(** [np.frombuffer(b, dtype=d)]: a one-dimensional array over the
    whole buffer; [ValueError] when the buffer is not a whole number
    of elements. *)
Definition frombuffer (host : byteorder) (b : bytes) (d : dtype)
  : outcome ndarray :=
  if decide ((length b mod itemsize d)%nat = 0%nat)
  then
    let n := (length b / itemsize d)%nat in
    Return (NDArray d [Z.of_nat n] (read_items (dtype_order host d) d n b))
  else Raise ValueError.

(** [a.reshape(newshape)] for a list of integers.  One entry may be
    [-1] and is then inferred; the element count has to be kept.
    More than [max_ndim] dimensions and dimensions outside [-1] and the
    index range are outside the model. *)
Definition reshape (a : ndarray) (newshape : list Z) : outcome ndarray :=
  if decide (max_ndim < length newshape)%nat then NotModelled
  else if decide (Forall (λ n, -1 ≤ n < intp_max) newshape) then
    let size := Z.of_nat (length (arr_data a)) in
    let known := product (filter (λ n, 0 ≤ n) newshape) in
    match length (filter (λ n, n = -1) newshape) with
    | O =>
        if decide (size = known)
        then Return (NDArray (arr_dtype a) newshape (arr_data a))
        else Raise ValueError
    | S O =>
        if decide (known = 0 ∨ size mod known ≠ 0) then Raise ValueError
        else Return (NDArray (arr_dtype a)
                       (map (λ n, if decide (n = -1) then size / known else n)
                            newshape)
                       (arr_data a))
    | _ => Raise ValueError
    end
  else NotModelled.

(** ** Classes and their method resolution order

    A class is known by its module, its qualified name and its direct
    bases.  [mro] is the C3 linearisation that [type.mro()] computes;
    it is [None] when Python refuses to create the class because the
    bases have no consistent linearisation. *)

Inductive pyclass :=
| PyClass (cls_module cls_qualname : str) (cls_bases : list pyclass).

Definition bases (c : pyclass) : list pyclass :=
  match c with PyClass _ _ bs => bs end.

#[global] Instance pyclass_eq_dec : EqDecision pyclass.
Proof.
  refine (fix go (a b : pyclass) {struct a} : Decision (a = b) :=
    match a, b with
    | PyClass m q bs, PyClass m' q' bs' =>
        cast_if_and3 (decide (m = m')) (decide (q = q'))
                     (@list_eq_dec _ go bs bs')
    end); abstract congruence.
Defined.

(** [c] occurs in some sequence after its first position. *)
Definition in_a_tail (c : pyclass) (seqs : list (list pyclass)) : bool :=
  existsb (λ s, bool_decide (c ∈ tail s)) seqs.

(** The head of the first sequence of [todo] that is in no tail of
    [seqs]. *)
Fixpoint find_candidate (todo seqs : list (list pyclass))
  : option pyclass :=
  match todo with
  | [] => None
  | [] :: rest => find_candidate rest seqs
  | (c :: _) :: rest =>
      if in_a_tail c seqs then find_candidate rest seqs else Some c
  end.

Definition drop_head (c : pyclass) (s : list pyclass) : list pyclass :=
  match s with
  | x :: s' => if decide (x = c) then s' else s
  | [] => []
  end.

Definition total_length (seqs : list (list pyclass)) : nat :=
  foldr (λ s n, (length s + n)%nat) 0%nat seqs.

(** The merge step of C3; every round removes a class from the
    sequences, so [total_length seqs] rounds are enough. *)
Fixpoint c3_merge (fuel : nat) (seqs : list (list pyclass))
  : option (list pyclass) :=
  match filter (λ s, s ≠ []) seqs with
  | [] => Some []
  | live =>
      match fuel with
      | O => None
      | S fuel' =>
          c ← find_candidate live live;
          rest ← c3_merge fuel' (map (drop_head c) live);
          Some (c :: rest)
      end
  end.

Fixpoint mro (c : pyclass) : option (list pyclass) :=
  match c with
  | PyClass _ _ bs =>
      let fix mros (l : list pyclass) : option (list (list pyclass)) :=
        match l with
        | [] => Some []
        | b :: l' => m ← mro b; ms ← mros l'; Some (m :: ms)
        end in
      ms ← mros bs;
      rest ← c3_merge (total_length (ms ++ [bs])) (ms ++ [bs]);
      Some (c :: rest)
  end.

(** [c] inherits from [b] through one or more base-class links. *)
Inductive strict_subclass : pyclass → pyclass → Prop :=
| subclass_base c b :
    b ∈ bases c → strict_subclass c b
| subclass_step c b' b :
    b' ∈ bases c → strict_subclass b' b → strict_subclass c b.

(** ** pint: units and quantities *)

(** A unit of the registry, known by the text [str(unit)] prints. *)
Record pint_unit := PintUnit { unit_text : str }.

(** A magnitude: a number or an array.  A float is its IEEE-754
    binary64 bit pattern; the codecs never compute with it. *)
Inductive magnitude :=
| MInt (z : Z)
| MFloat (bits : Z)
| MArray (a : ndarray).

(** A quantity [q] with [q.m] and [q.u]. *)
Record quantity := Quantity { q_m : magnitude; q_u : pint_unit }.

(** ** Python values, dictionaries and the object store *)

Inductive value :=
| VNone
| VBool (b : bool)
| VInt (z : Z)
| VFloat (bits : Z)
| VStr (s : str)
| VBytes (b : bytes)
| VList (l : list value)
| VArray (a : ndarray)
| VUnit (u : pint_unit)
| VQuantity (q : quantity)
| VInstance (c : pyclass) (fields : list (str * value))
| VRef (l : positive).

(** A dictionary with string keys, as JSON decoding produces. *)
Abbreviation dict := (gmap str value).

(** [dct[key]] *)
Definition getitem (dct : dict) (key : str) : outcome value :=
  match dct !! key with
  | Some v => Return v
  | None => Raise (KeyError key)
  end.

(** [key in dct] *)
Definition contains (dct : dict) (key : str) : bool :=
  bool_decide (is_Some (dct !! key)).

Definition value_of_magnitude (m : magnitude) : value :=
  match m with
  | MInt z => VInt z
  | MFloat f => VFloat f
  | MArray a => VArray a
  end.

(** [v == s] for a string literal [s]: string equality on a [str],
    [False] for the other built-in values; numpy and pint objects and
    class instances define their own comparison. *)
Definition py_eq_str (v : value) (s : str) : outcome bool :=
  match v with
  | VStr t => Return (bool_decide (t = s))
  | VNone | VBool _ | VInt _ | VFloat _ | VBytes _ | VList _ | VRef _ =>
      Return false
  | VArray _ | VUnit _ | VQuantity _ | VInstance _ _ => NotModelled
  end.


(** [a * b] where [b] is a unit: pint multiplies the quantity "one
    [b]" by [a], which for a number or a numeric array [a] is the
    quantity with magnitude [a] and unit [b]. *)
Definition py_mul (a b : value) : outcome value :=
  match b with
  | VUnit u =>
      match a with
      | VInt z => Return (VQuantity (Quantity (MInt z) u))
      | VFloat f => Return (VQuantity (Quantity (MFloat f) u))
      | VArray x =>
          if decide (scalar_kind (dt_scalar (arr_dtype x)) = KBool)
          then NotModelled
          else Return (VQuantity (Quantity (MArray x) u))
      | _ => NotModelled
      end
  | _ => NotModelled
  end.

(** Calls into the collaborators, in the order they happen. *)
Inductive event :=
| EGetClass (module qualname : value)
| EConstruct (cls : pyclass) (kwargs : dict).

(** The store: dictionary objects by address, and the calls made so
    far. *)
Record world := World {
  heap : gmap positive dict;
  trace : list event
}.

(** A computation over the store.  A raised exception keeps the store
    as it is at that point. *)
Definition M (A : Type) : Type := world → outcome A * world.

#[global] Instance M_ret : MRet M := λ A a w, (Return a, w).
#[global] Instance M_bind : MBind M := λ A B f m w,
  match m w with
  | (Return a, w') => f a w'
  | (Raise e, w') => (Raise e, w')
  | (NotModelled, w') => (NotModelled, w')
  end.

Definition lift {A} (o : outcome A) : M A := λ w, (o, w).

Definition load (r : positive) : M dict := λ w,
  match heap w !! r with
  | Some d => (Return d, w)
  | None => (NotModelled, w)
  end.

Definition store (r : positive) (d : dict) : M () := λ w,
  (Return (), World (<[r := d]> (heap w)) (trace w)).

Definition alloc (d : dict) : M positive := λ w,
  let r := fresh (dom (heap w)) in
  (Return r, World (<[r := d]> (heap w)) (trace w)).

Definition emit (e : event) : M () := λ w,
  (Return (), World (heap w) (trace w ++ [e])).

(** [dict(dct)]: a new dictionary object with the same entries. *)
Definition dict_copy (dct : positive) : M positive :=
  d ← load dct; alloc d.

(** [key in dct] *)
Definition dict_contains (dct : positive) (key : str) : M bool :=
  d ← load dct; mret (contains d key).

(** [dct.pop(key)]: removes the entry in place and returns its value. *)
Definition dict_pop (dct : positive) (key : str) : M value :=
  d ← load dct;
  match d !! key with
  | Some v => _ ← store dct (delete key d); mret v
  | None => lift (Raise (KeyError key))
  end.

(** [del dct[key]] *)
Definition dict_del (dct : positive) (key : str) : M () :=
  d ← load dct;
  match d !! key with
  | Some _ => store dct (delete key d)
  | None => lift (Raise (KeyError key))
  end.

(** ** custom_codecs.py *)

Section custom_codecs.

(** The collaborators the module imports: [gufe.tokenization.get_class],
    the call of a resolved class with keyword arguments, and the call
    [DEFAULT_UNIT_REGISTRY(text)] of the unit registry. *)
Context (get_class : value → value → outcome pyclass).
Context (construct : pyclass → dict → outcome value).
Context (DEFAULT_UNIT_REGISTRY : str → outcome value).

Definition call_get_class (module qualname : value) : M pyclass :=
  _ ← emit (EGetClass module qualname); lift (get_class module qualname).

(** The call of [cls] on the unpacked [dct]: its entries are passed
    as keyword arguments. *)
Definition call_construct (cls : pyclass) (dct : positive) : M value :=
  kwargs ← load dct;
  _ ← emit (EConstruct cls kwargs); lift (construct cls kwargs).

Definition default_from_dict (dct : positive) : M value :=
  dct ← dict_copy dct;
  module ← dict_pop dct (lit "__module__");
  qualname ← dict_pop dct (lit "__class__");
  _ ← dict_del dct (lit ":is_custom:");
  cls ← call_get_class module qualname;
  call_construct cls dct.

Definition inherited_is_my_dict (dct : positive) (cls : pyclass) : M bool :=
  has_module ← dict_contains dct (lit "__module__");
  has_both ← (if has_module : bool
              then dict_contains dct (lit "__class__")
              else mret false);
  if negb has_both then mret false
  else
    dct ← dict_copy dct;
    module ← dict_pop dct (lit "__module__");
    classname ← dict_pop dct (lit "__class__");
    stored ← call_get_class module classname;
    match mro stored with
    | Some linear => mret (bool_decide (cls ∈ linear))
    | None => lift NotModelled
    end.

Definition openff_unit_to_dict (unit : pint_unit) : dict :=
  {[ lit ":is_custom:" := VBool true;
     lit "pint_unit_registry" := VStr (lit "openff_units");
     lit "unit_name" := VStr (unit_text unit) ]}.

(** [all(exp in dct for exp in expected)] *)
Definition all_in (expected : list str) (dct : dict) : bool :=
  forallb (contains dct) expected.

Definition is_openff_unit_dict (dct : dict) : outcome bool :=
  let expected :=
    [lit "pint_unit_registry"; lit "unit_name"; lit ":is_custom:"] in
  let is_custom := all_in expected dct in
  if is_custom
  then v ← getitem dct (lit "pint_unit_registry");
       py_eq_str v (lit "openff_units")
  else Return false.

Definition is_openff_quantity_dict (dct : dict) : outcome bool :=
  let expected :=
    [lit "pint_unit_registry"; lit "magnitude"; lit ":is_custom:";
     lit "unit"] in
  let is_custom := all_in expected dct in
  if is_custom
  then v ← getitem dct (lit "pint_unit_registry");
       py_eq_str v (lit "openff_units")
  else Return false.

(** [DEFAULT_UNIT_REGISTRY(dct["unit_name"]).u] *)
Definition openff_unit_from_dict (dct : dict) : outcome value :=
  name ← getitem dct (lit "unit_name");
  match name with
  | VStr text =>
      parsed ← DEFAULT_UNIT_REGISTRY text;
      match parsed with
      | VQuantity q => Return (VUnit (q_u q))
      | VNone | VBool _ | VInt _ | VFloat _ => Raise AttributeError
      | _ => NotModelled
      end
  | _ => NotModelled
  end.

End custom_codecs.

Module BYTES_CODEC.

Definition to_dict (obj : bytes) : dict :=
  {[ lit "latin-1" := VStr (latin1_decode obj) ]}.

(** [.encode] exists on [str] only among the built-in values. *)
Definition from_dict (dct : dict) : outcome value :=
  text ← getitem dct (lit "latin-1");
  match text with
  | VStr s => b ← latin1_encode s; Return (VBytes b)
  | VNone | VBool _ | VInt _ | VFloat _ | VBytes _ | VList _ | VRef _
  | VArray _ => Raise AttributeError
  | VUnit _ | VQuantity _ | VInstance _ _ => NotModelled
  end.

End BYTES_CODEC.

Module NUMPY_CODEC.

Definition to_dict (host : byteorder) (obj : ndarray) : dict :=
  {[ lit "dtype" := VStr (dtype_str host (arr_dtype obj));
     lit "shape" := VList (VInt <$> arr_shape obj);
     lit "bytes" := VBytes (tobytes host obj) ]}.

(** The integers of a list of [int] values. *)
Fixpoint ints (l : list value) : option (list Z) :=
  match l with
  | [] => Some []
  | VInt n :: l' => ns ← ints l'; Some (n :: ns)
  | _ => None
  end.

(** The three library calls on the values found in the dictionary:
    a [bytes] buffer, a dtype string, and a list of integers (or one
    integer) for the shape. *)
Definition np_dtype_of (host : byteorder) (v : value) : outcome dtype :=
  match v with
  | VStr s => np_dtype host s
  | _ => NotModelled
  end.

Definition frombuffer_of (host : byteorder) (v : value) (d : dtype)
  : outcome ndarray :=
  match v with
  | VBytes b => frombuffer host b d
  | _ => NotModelled
  end.

Definition reshape_of (a : ndarray) (v : value) : outcome ndarray :=
  match v with
  | VList l =>
      match ints l with
      | Some dims => reshape a dims
      | None => NotModelled
      end
  | VInt n => reshape a [n]
  | _ => NotModelled
  end.

(** Python evaluates [dct['bytes']], then [np.dtype(dct['dtype'])],
    calls [np.frombuffer], and only then looks up [dct['shape']] and
    reshapes. *)
Definition from_dict (host : byteorder) (dct : dict) : outcome value :=
  buffer ← getitem dct (lit "bytes");
  name ← getitem dct (lit "dtype");
  d ← np_dtype_of host name;
  flat ← frombuffer_of host buffer d;
  shape ← getitem dct (lit "shape");
  a ← reshape_of flat shape;
  Return (VArray a).

End NUMPY_CODEC.

Module SETTINGS_CODEC.

(** [{field: getattr(obj, field) for field in obj.__fields__}]; an
    instance carries its fields by name, and the built-in values have
    no [__fields__]. *)
Definition to_dict (obj : value) : outcome dict :=
  match obj with
  | VInstance _ fields =>
      Return (foldl (λ d field,
                       match assoc field fields with
                       | Some v => <[field := v]> d
                       | None => d
                       end) ∅ fields.*1)
  | VNone | VBool _ | VInt _ | VFloat _ | VStr _ | VBytes _ | VList _
  | VRef _ | VArray _ => Raise AttributeError
  | VUnit _ | VQuantity _ => NotModelled
  end.

Definition from_dict := default_from_dict.

(** [functools.partial(inherited_is_my_dict, cls=SettingsBaseModel)];
    the settings base class is imported from [gufe.settings.models]. *)
Definition is_my_dict get_class (SettingsBaseModel : pyclass)
                      (dct : positive) : M bool :=
  inherited_is_my_dict get_class dct SettingsBaseModel.

End SETTINGS_CODEC.

Module OPENFF_QUANTITY_CODEC.

Definition to_dict (obj : quantity) : dict :=
  {[ lit "magnitude" := value_of_magnitude (q_m obj);
     lit "unit" := VUnit (q_u obj);
     lit ":is_custom:" := VBool true;
     lit "pint_unit_registry" := VStr (lit "openff_units") ]}.

Definition from_dict (dct : dict) : outcome value :=
  m ← getitem dct (lit "magnitude");
  u ← getitem dct (lit "unit");
  py_mul m u.

Definition is_my_dict := is_openff_quantity_dict.

End OPENFF_QUANTITY_CODEC.

Module OPENFF_UNIT_CODEC.

Definition to_dict := openff_unit_to_dict.
Definition from_dict := openff_unit_from_dict.
Definition is_my_dict := is_openff_unit_dict.

End OPENFF_UNIT_CODEC.

(** ** Notions used in the statements *)

(** Row-major position of the element at index [idx] in an array of
    shape [shape]: the last index varies fastest.  [None] when the
    index has the wrong length or is out of bounds. *)
Fixpoint flat_index_from (acc : Z) (shape idx : list Z) : option Z :=
  match shape, idx with
  | [], [] => Some acc
  | n :: shape', i :: idx' =>
      if decide (0 ≤ i < n) then flat_index_from (acc * n + i) shape' idx'
      else None
  | _, _ => None
  end.

Definition flat_index (shape idx : list Z) : option Z :=
  flat_index_from 0 shape idx.

(** [a[idx]] for a full index. *)
Definition ndarray_item (a : ndarray) (idx : list Z) : option Z :=
  pos ← flat_index (arr_shape a) idx; arr_data a !! Z.to_nat pos.

(** The payload the specification asks for: every element
    little-endian, whatever the platform and the dtype's own order. *)
Definition little_endian_payload (a : ndarray) : bytes :=
  flat_map (item_bytes LittleEndian (arr_dtype a)) (arr_data a).

(** An array dictionary the specification calls malformed: no
    ['bytes'] entry, or a payload whose length is not the element size
    times the number of elements of the shape. *)
Definition malformed_array_dict (host : byteorder) (dct : dict) : Prop :=
  dct !! lit "bytes" = None
  ∨ ∃ b s d dims,
      dct !! lit "bytes" = Some (VBytes b)
      ∧ dct !! lit "dtype" = Some (VStr s)
      ∧ np_dtype host s = Return d
      ∧ dct !! lit "shape" = Some (VList (VInt <$> dims))
      ∧ (length dims ≤ max_ndim)%nat
      ∧ Forall (λ n, 0 ≤ n < intp_max) dims
      ∧ Z.of_nat (length b) ≠ Z.of_nat (itemsize d) * product dims.

(** Sample inputs. *)
Definition int64 : dtype := Dtype Int64 false.
Definition int64_2x3 : ndarray := NDArray int64 [2; 3] [1; 2; 3; 4; 5; 6].
Definition int64_one : ndarray := NDArray int64 [1] [1].
Definition int64_one_swapped : ndarray := NDArray (Dtype Int64 true) [1] [1].

(** The dictionary objects that exist in [w0] are the same in [w]. *)
Definition agree (w0 w : world) : Prop :=
  ∀ l, l ∈ dom (heap w0) → heap w !! l = heap w0 !! l.

(** A computation that leaves the objects of [w0] as they are. *)
Definition keeps (w0 : world) {A} (m : M A) : Prop :=
  ∀ w, agree w0 w → agree w0 (m w).2.

(** The keys [default_from_dict] removes before constructing. *)
Definition bookkeeping_keys : list str :=
  [lit "__module__"; lit "__class__"; lit ":is_custom:"].

(** Modelled from the spec: the dict match of a codec that is
    registered for a class.  [gufe.custom_json.JSONCodec], which
    supplies it when a codec is built without [is_my_dict], is not
    among the sources.  The specification has such a codec declare
    itself applicable to a decoded dict "by the presence of
    __module__/__class__ resolving (via the Class Resolver) to a
    subtype of a statically known base type". *)
Definition class_identity_is_my_dict
    (get_class : value → value → outcome pyclass)
    (cls : pyclass) (dct : positive) : M bool :=
  inherited_is_my_dict get_class dct cls.

(** The classes the settings, path, bytes and array codecs are
    registered for. *)
Record codec_classes := CodecClasses {
  settings_cls : pyclass;
  path_cls : pyclass;
  bytes_cls : pyclass;
  ndarray_cls : pyclass
}.

(** A predicate call that returned [True]. *)
Definition accepts (o : outcome bool) : bool :=
  match o with
  | Return b => b
  | _ => false
  end.

(** The verdicts of the registered dict predicates on the dictionary
    at [dct]: unit, quantity, settings, path, bytes, array. *)
Definition dict_matches (get_class : value → value → outcome pyclass)
    (classes : codec_classes) (w : world) (dct : positive) : list bool :=
  match heap w !! dct with
  | Some d =>
      [ accepts (OPENFF_UNIT_CODEC.is_my_dict d);
        accepts (OPENFF_QUANTITY_CODEC.is_my_dict d) ]
  | None => []
  end
  ++ [ accepts (SETTINGS_CODEC.is_my_dict get_class (settings_cls classes) dct w).1;
       accepts (class_identity_is_my_dict get_class (path_cls classes) dct w).1;
       accepts (class_identity_is_my_dict get_class (bytes_cls classes) dct w).1;
       accepts (class_identity_is_my_dict get_class (ndarray_cls classes) dct w).1 ].

Definition count_true (l : list bool) : nat := sum_list (Nat.b2n <$> l).


(** Sample inputs. *)
Definition object_cls : pyclass := PyClass (lit "builtins") (lit "object") [].
Definition settings_base : pyclass :=
  PyClass (lit "gufe.settings.models") (lit "SettingsBaseModel") [object_cls].
Definition thermo_settings : pyclass :=
  PyClass (lit "gufe.settings.models") (lit "ThermoSettings") [settings_base].
Definition sample_classes : codec_classes :=
  CodecClasses settings_base
    (PyClass (lit "pathlib") (lit "Path") [object_cls])
    (PyClass (lit "builtins") (lit "bytes") [object_cls])
    (PyClass (lit "numpy") (lit "ndarray") [object_cls]).

(** A resolver that knows one settings class. *)
Definition sample_get_class (module qualname : value) : outcome pyclass :=
  match module, qualname with
  | VStr m, VStr q =>
      if decide (m = lit "gufe.settings.models" ∧ q = lit "ThermoSettings")
      then Return thermo_settings else Raise AttributeError
  | _, _ => Raise TypeError
  end.

Definition sample_construct (cls : pyclass) (kwargs : dict) : outcome value :=
  Return (VInstance cls (map_to_list kwargs)).

Definition settings_dict : dict :=
  {[ lit "__module__" := VStr (lit "gufe.settings.models");
     lit "__class__" := VStr (lit "ThermoSettings");
     lit ":is_custom:" := VBool true;
     lit "temperature" := VInt 300 ]}.

Definition settings_world : world := World {[ 1%positive := settings_dict ]} [].


(** 9.8 meter / second ** 2; the magnitude is the binary64 nearest to
    9.8. *)
Definition gravity : quantity :=
  Quantity (MFloat 0x402399999999999A) (PintUnit (lit "meter / second ** 2")).

(** A registry that knows the unit of [gravity]. *)
Definition sample_registry (text : str) : outcome value :=
  if decide (text = lit "meter / second ** 2")
  then Return (VQuantity (Quantity (MInt 1) (PintUnit text)))
  else Raise AttributeError.

(** ** pathlib: pure POSIX paths

    The fragment of [pathlib] the path codec runs on, for the POSIX
    flavour: a path is its root (empty, one slash or two slashes) and
    its components; [pathlib.Path(text)] parses a string and [str(p)]
    prints the path. *)

Definition slash : N := 47.
Definition dot_text : str := lit ".".

Record posix_path := PosixPath {
  path_root : str;
  path_parts : list str
}.

(** [s.split('/')] *)
Fixpoint split_slash (s : str) : list str :=
  match s with
  | [] => [[]]
  | c :: s' =>
      if decide (c = slash) then [] :: split_slash s'
      else match split_slash s' with
           | word :: words => (c :: word) :: words
           | [] => [[c]]
           end
  end.

(** ['/'.join(parts)] *)
Fixpoint join_slash (parts : list str) : str :=
  match parts with
  | [] => []
  | [p] => p
  | p :: rest => p ++ slash :: join_slash rest
  end.

(** [s.lstrip('/')] *)
Fixpoint lstrip_slash (s : str) : str :=
  match s with
  | c :: s' => if decide (c = slash) then lstrip_slash s' else s
  | [] => []
  end.

(** The root of a path string and what follows it: exactly two
    leading slashes are kept as a root of their own, any other number
    of leading slashes is the root [/]. *)
Definition splitroot (part : str) : str * str :=
  match part with
  | c :: _ =>
      if decide (c = slash) then
        let stripped := lstrip_slash part in
        if decide ((length part - length stripped)%nat = 2%nat)
        then ([slash; slash], stripped)
        else ([slash], stripped)
      else ([], part)
  | [] => ([], part)
  end.

(** [pathlib.Path(text)]: empty components and [.] components are
    dropped. *)
Definition path_parse (text : str) : posix_path :=
  let '(root, rel) := splitroot text in
  PosixPath root (filter (λ x, x ≠ [] ∧ x ≠ dot_text) (split_slash rel)).

(** [str(p)]: the root followed by the joined components, and [.]
    for the empty relative path. *)
Definition path_str (p : posix_path) : str :=
  let body := path_root p ++ join_slash (path_parts p) in
  match body with
  | [] => dot_text
  | _ => body
  end.

(** The paths [pathlib] builds: a root of at most two slashes and
    components that are not empty, not [.] and hold no slash. *)
Definition path_wf (p : posix_path) : Prop :=
  path_root p ∈ [[]; [slash]; [slash; slash]]
  ∧ Forall (λ x, x ≠ [] ∧ x ≠ dot_text ∧ slash ∉ x) (path_parts p).

Module PATH_CODEC.

Definition to_dict (p : posix_path) : dict :=
  {[ lit "path" := VStr (path_str p) ]}.

(** [pathlib.Path] takes a [str]; it refuses the other built-in
    values and arrays with [TypeError]. *)
Definition from_dict (dct : dict) : outcome posix_path :=
  text ← getitem dct (lit "path");
  match text with
  | VStr s => Return (path_parse s)
  | VNone | VBool _ | VInt _ | VFloat _ | VBytes _ | VList _ | VRef _
  | VArray _ => Raise TypeError
  | VUnit _ | VQuantity _ | VInstance _ _ => NotModelled
  end.

End PATH_CODEC.

(** ** The bookkeeping keys around a settings dictionary *)

(** The dictionary a settings object travels as: its fields together
    with the module key, the class key and the custom marker that
    [default_from_dict] takes off again. *)
Definition with_bookkeeping (module qualname : value) (fields : dict) : dict :=
  <[ lit "__module__" := module ]>
    (<[ lit "__class__" := qualname ]>
       (<[ lit ":is_custom:" := VBool true ]> fields)).

(** The first of the keys [default_from_dict] needs that [d] lacks. *)
Definition first_missing_key (d : dict) : option str :=
  if negb (contains d (lit "__module__")) then Some (lit "__module__")
  else if negb (contains d (lit "__class__")) then Some (lit "__class__")
  else if negb (contains d (lit ":is_custom:")) then Some (lit ":is_custom:")
  else None.

(** ** protocols/protocol.py *)

(** A Python function as a call with keyword arguments sees it: the
    parameters after [self], each with its default when it has one,
    whether it ends in a [**kwargs] parameter, and the body on [self],
    the bound parameters and the collected extra keywords. *)
Record pyfunction := PyFunction {
  fn_params : list (str * option value);
  fn_var_keyword : bool;
  fn_body : value → dict → dict → outcome value
}.

(** Binding the keyword arguments of a call: a keyword that names no
    parameter goes to [**kwargs] when there is one and is a
    [TypeError] otherwise. *)
Fixpoint bind_keywords (names : list str) (var_keyword : bool)
    (kwargs : list (str * value)) (bound extra : dict)
  : outcome (dict * dict) :=
  match kwargs with
  | [] => Return (bound, extra)
  | (k, v) :: rest =>
      if decide (k ∈ names) then
        match bound !! k with
        | Some _ => Raise TypeError
        | None => bind_keywords names var_keyword rest (<[k := v]> bound) extra
        end
      else if var_keyword
      then bind_keywords names var_keyword rest bound (<[k := v]> extra)
      else Raise TypeError
  end.

(** Parameters left unbound take their default; one without a default
    is a [TypeError]. *)
Fixpoint fill_defaults (params : list (str * option value)) (bound : dict)
  : outcome dict :=
  match params with
  | [] => Return bound
  | (k, default) :: rest =>
      match bound !! k, default with
      | Some _, _ => fill_defaults rest bound
      | None, Some v => fill_defaults rest (<[k := v]> bound)
      | None, None => Raise TypeError
      end
  end.

(** [self.f(k1=v1, ..., kn=vn)] *)
Definition call_method (f : pyfunction) (self : value)
    (kwargs : list (str * value)) : outcome value :=
  binding ← bind_keywords (fn_params f).*1 (fn_var_keyword f) kwargs ∅ ∅;
  bound ← fill_defaults (fn_params f) binding.1;
  fn_body f self bound binding.2.

(** The parameters the abstract method [_create] declares. *)
Definition declared_create_params : list (str * option value) :=
  [ (lit "initial", None); (lit "final", None);
    (lit "mapping", Some VNone); (lit "protocol_result", Some VNone);
    (lit "settings", Some VNone) ].

Module Protocol.

(** [self._create(initial=initial, final=final, mapping=mapping,
    extend_from=extend_from, settings=settings)], for the [_create]
    the concrete protocol class defines. *)
Definition create (_create : pyfunction) (self : value)
    (initial final mapping extend_from settings : value) : outcome value :=
  call_method _create self
    [ (lit "initial", initial); (lit "final", final);
      (lit "mapping", mapping); (lit "extend_from", extend_from);
      (lit "settings", settings) ].

End Protocol.

(** Sample inputs. *)
Definition tmp_data_txt : posix_path :=
  PosixPath [slash] [lit "tmp"; lit "data.txt"].

Definition declared_create : pyfunction :=
  PyFunction declared_create_params false (λ _ _ _, Return VNone).

Definition int8_pair : ndarray := NDArray (Dtype Int8 false) [2] [-1; 5].

Definition thermo_instance : value :=
  VInstance thermo_settings [(lit "temperature", VInt 300)].

Definition latin1_abc_dict : dict :=
  {[ lit "latin-1" := VStr [0%N; 255%N; 65%N] ]}.

(** A text with a code point outside latin-1. *)
Definition wide_text_dict : dict :=
  {[ lit "latin-1" := VStr [65%N; 256%N] ]}.

(** An array dictionary whose shape leaves one dimension open. *)
Definition open_shape_dict : dict :=
  <[ lit "shape" := VList [VInt (-1); VInt 3] ]>
    (NUMPY_CODEC.to_dict LittleEndian int64_2x3).

(** The same array with the dtype marked native. *)
Definition as_native (a : ndarray) : ndarray :=
  NDArray (Dtype (dt_scalar (arr_dtype a)) false) (arr_shape a) (arr_data a).

(** An array dictionary with a payload of seven bytes and no shape. *)
Definition ragged_dict : dict :=
  {[ lit "bytes" := VBytes [x01; x02; x03; x04; x05; x06; x07];
     lit "dtype" := VStr (lit "int64") ]}.

(** The settings dictionary without its custom marker. *)
Definition unmarked_settings_dict : dict :=
  delete (lit ":is_custom:") settings_dict.

Definition unmarked_settings_world : world :=
  World {[ 1%positive := unmarked_settings_dict ]} [].

(** A resolver that finds nothing. *)
Definition failing_get_class (module qualname : value) : outcome pyclass :=
  Raise AttributeError.

(** The fields of [thermo_instance] as the settings codec writes
    them, alone and with the bookkeeping keys. *)
Definition thermo_fields : dict := {[ lit "temperature" := VInt 300 ]}.

Definition thermo_fields_world : world :=
  World {[ 1%positive := thermo_fields ]} [].

(** A [_create] that takes the keywords [create] passes. *)
Definition extend_from_create : pyfunction :=
  PyFunction
    [ (lit "initial", None); (lit "final", None);
      (lit "mapping", Some VNone); (lit "extend_from", Some VNone);
      (lit "settings", Some VNone) ]
    false
    (λ _ bound _, Return (default VNone (bound !! lit "extend_from"))).

(** A path text with a doubled slash, a [.] component and a trailing
    slash. *)
Definition untidy_path_dict : dict :=
  {[ lit "path" := VStr (lit "a//b/./c/") ]}.

(** * Proofs *)

(** ** latin-1 *)

Lemma latin1_encode_decode (b : bytes) :
  latin1_encode (latin1_decode b) = Return b.
Proof.
  induction b as [|x b IH]; [reflexivity|].
  cbn [latin1_decode map latin1_encode].
  rewrite Byte.of_to_N. fold (latin1_decode b). now rewrite IH.
Qed.

(** ** Bytes and words *)

Lemma Z_of_byte_range (b : byte) : 0 ≤ Z_of_byte b < 256.
Proof.
  unfold Z_of_byte. pose proof (Byte.to_N_bounded b). lia.
Qed.

Lemma Z_of_byte_of_Z (z : Z) : Z_of_byte (byte_of_Z z) = z mod 256.
Proof.
  unfold Z_of_byte, byte_of_Z.
  pose proof (Z.mod_pos_bound z 256 ltac:(lia)) as Hr.
  destruct (Byte.of_N (Z.to_N (z mod 256))) as [b|] eqn:Hb.
  - apply Byte.to_of_N in Hb. simpl. rewrite Hb. lia.
  - apply Byte.of_N_None_iff in Hb. lia.
Qed.

Lemma length_le_bytes (n : nat) (v : Z) : length (le_bytes n v) = n.
Proof.
  revert v; induction n as [|n IH]; intros v; cbn [le_bytes length];
    [reflexivity | now rewrite IH].
Qed.

Lemma le_value_le_bytes (n : nat) (v : Z) :
  le_value (le_bytes n v) = v mod 256 ^ Z.of_nat n.
Proof.
  revert v; induction n as [|n IH]; intros v.
  - cbn. now rewrite Z.mod_1_r.
  - cbn [le_bytes le_value]. rewrite Z_of_byte_of_Z, IH.
    rewrite Nat2Z.inj_succ, Z.pow_succ_r by lia.
    rewrite Z.rem_mul_r by lia. lia.
Qed.

Lemma length_word_bytes (o : byteorder) (n : nat) (v : Z) :
  length (word_bytes o n v) = n.
Proof.
  destruct o; cbn [word_bytes]; rewrite ?length_rev; apply length_le_bytes.
Qed.

Lemma word_value_word_bytes (o : byteorder) (n : nat) (v : Z) :
  word_value o (word_bytes o n v) = v mod 256 ^ Z.of_nat n.
Proof.
  destruct o; cbn [word_bytes word_value];
    rewrite ?rev_involutive; apply le_value_le_bytes.
Qed.

Lemma pow256 (n : nat) : 256 ^ Z.of_nat n = 2 ^ (8 * Z.of_nat n).
Proof. rewrite Z.pow_mul_r by lia. reflexivity. Qed.

Lemma length_item_bytes (o : byteorder) (d : dtype) (v : Z) :
  length (item_bytes o d v) = itemsize d.
Proof.
  unfold item_bytes, itemsize.
  destruct d as [s sw]; destruct s; cbn;
    rewrite ?length_app, ?length_word_bytes; reflexivity.
Qed.

Lemma itemsize_pos (d : dtype) : (0 < itemsize d)%nat.
Proof. destruct d as [s sw]; destruct s; cbn; lia. Qed.

Lemma item_value_item_bytes (o : byteorder) (d : dtype) (v : Z) :
  in_range d v → item_value o d (item_bytes o d v) = v.
Proof.
  unfold in_range, item_value, item_bytes.
  destruct (scalar_kind (dt_scalar d)) eqn:Hk; intros Hv;
    try (rewrite word_value_word_bytes, pow256; apply Z.mod_small; exact Hv).
  - (* signed integers: two's complement *)
    rewrite word_value_word_bytes, pow256.
    set (bits := 8 * Z.of_nat (itemsize d)) in *.
    assert (0 < bits) by (pose proof (itemsize_pos d); lia).
    assert (2 ^ bits = 2 * 2 ^ (bits - 1)) as Hp.
    { rewrite <- Z.pow_succ_r by lia. f_equal. lia. }
    destruct (decide (0 ≤ v)).
    + rewrite Z.mod_small by lia. case_decide; lia.
    + replace (v mod 2 ^ bits) with (v + 2 ^ bits).
      * case_decide; lia.
      * apply Z.mod_unique with (q := -1); lia.
  - (* complex numbers: two words *)
    set (c := (itemsize d / 2)%nat) in *.
    assert (itemsize d = (c + c)%nat) as Hc.
    { subst c. unfold itemsize. destruct d as [s sw]; destruct s; try discriminate; reflexivity. }
    rewrite take_app_length', drop_app_length' by (now rewrite length_word_bytes).
    rewrite !word_value_word_bytes.
    rewrite Hc, Nat2Z.inj_add in Hv.
    replace (8 * (Z.of_nat c + Z.of_nat c)) with (8 * Z.of_nat c + 8 * Z.of_nat c) in Hv by lia.
    rewrite Z.pow_add_r, <- pow256 in Hv by lia.
    set (p := 256 ^ Z.of_nat c) in *.
    assert (0 < p) by (subst p; apply Z.pow_pos_nonneg; lia).
    rewrite (Z.mod_small (v / p)).
    + pose proof (Z.div_mod v p ltac:(lia)). lia.
    + split; [apply Z.div_pos; lia | apply Z.div_lt_upper_bound; lia].
Qed.

Lemma read_items_flat_map (o : byteorder) (d : dtype) (data : list Z) (rest : bytes) :
  Forall (in_range d) data →
  read_items o d (length data) (flat_map (item_bytes o d) data ++ rest) = data.
Proof.
  induction 1 as [|v data Hv _ IH]; [reflexivity|].
  cbn [length read_items flat_map]. rewrite <- app_assoc.
  rewrite take_app_length', drop_app_length' by (now rewrite length_item_bytes).
  now rewrite item_value_item_bytes, IH.
Qed.

Lemma length_tobytes (host : byteorder) (a : ndarray) :
  length (tobytes host a) = (length (arr_data a) * itemsize (arr_dtype a))%nat.
Proof.
  unfold tobytes. induction (arr_data a) as [|v l IH]; [reflexivity|].
  cbn [flat_map length]. rewrite length_app, length_item_bytes, IH. lia.
Qed.

Lemma frombuffer_tobytes (host : byteorder) (a : ndarray) :
  Forall (in_range (arr_dtype a)) (arr_data a) →
  frombuffer host (tobytes host a) (arr_dtype a)
  = Return (NDArray (arr_dtype a) [Z.of_nat (length (arr_data a))] (arr_data a)).
Proof.
  intros Hr. unfold frombuffer. pose proof (itemsize_pos (arr_dtype a)).
  rewrite length_tobytes, Nat.Div0.mod_mul.
  rewrite decide_True by reflexivity.
  rewrite Nat.div_mul by lia. do 2 f_equal.
  unfold tobytes.
  rewrite <- (app_nil_r (flat_map _ _)). now apply read_items_flat_map.
Qed.

Lemma np_dtype_str (host : byteorder) (d : dtype) :
  dtype_wf d → np_dtype host (dtype_str host d) = Return d.
Proof.
  unfold dtype_wf. destruct d as [s [|]]; intros Hwf;
    destruct host, s; try (discriminate Hwf; reflexivity);
    vm_compute; reflexivity.
Qed.

Lemma ints_fmap (dims : list Z) : NUMPY_CODEC.ints (VInt <$> dims) = Some dims.
Proof.
  induction dims as [|n dims IH]; [reflexivity|].
  cbn. rewrite IH. reflexivity.
Qed.

Lemma filter_all {A} (P : A → Prop) `{∀ x, Decision (P x)} (l : list A) :
  Forall P l → filter P l = l.
Proof.
  induction 1 as [|x l Hx _ IH]; [reflexivity|].
  rewrite filter_cons_True by done. now rewrite IH.
Qed.

Lemma filter_none {A} (P : A → Prop) `{∀ x, Decision (P x)} (l : list A) :
  Forall (λ x, ¬ P x) l → filter P l = [].
Proof.
  induction 1 as [|x l Hx _ IH]; [reflexivity|].
  now rewrite filter_cons_False by done.
Qed.

(** Reshaping to a shape of non-negative dimensions succeeds exactly
    when the element count matches. *)
Lemma reshape_plain (a : ndarray) (dims : list Z) :
  (length dims ≤ max_ndim)%nat →
  Forall (λ n, 0 ≤ n < intp_max) dims →
  reshape a dims =
    if decide (Z.of_nat (length (arr_data a)) = product dims)
    then Return (NDArray (arr_dtype a) dims (arr_data a))
    else Raise ValueError.
Proof.
  intros Hn Hd. unfold reshape.
  rewrite decide_False by lia.
  rewrite decide_True by (revert Hd; apply List.Forall_impl; intros; lia).
  rewrite (filter_all (λ n, 0 ≤ n)) by (revert Hd; apply List.Forall_impl; intros; lia).
  rewrite (filter_none (λ n, n = -1)) by (revert Hd; apply List.Forall_impl; intros; lia).
  reflexivity.
Qed.

(** Looking a literal key up in a dictionary display. *)
Ltac dict_lookup :=
  repeat match goal with
         | |- context [ VStr ?s ] => is_var s; fail 1
         | |- context [ VStr ?s ] => generalize s; intro
         | |- context [ VBytes ?s ] => is_var s; fail 1
         | |- context [ VBytes ?s ] => generalize s; intro
         | |- context [ VList ?s ] => is_var s; fail 1
         | |- context [ VList ?s ] => generalize s; intro
         end;
  vm_compute; reflexivity.

Lemma numpy_to_dict_bytes host a :
  NUMPY_CODEC.to_dict host a !! lit "bytes" = Some (VBytes (tobytes host a)).
Proof. unfold NUMPY_CODEC.to_dict. dict_lookup. Qed.

Lemma length_read_items o d n b : length (read_items o d n b) = n.
Proof.
  revert b; induction n as [|n IH]; intros b; cbn [read_items length];
    [reflexivity | now rewrite IH].
Qed.

(** In a concatenation of chunks of one length, chunk [i] is found at
    offset [i] times that length. *)
Lemma flat_map_chunk {A B} (f : A → list B) (n : nat) (l : list A) (i : nat) (x : A) :
  (∀ y, length (f y) = n) →
  l !! i = Some x →
  take n (drop (n * i) (flat_map f l)) = f x.
Proof.
  intros Hlen. revert i. induction l as [|y l IH]; intros i Hi; [done|].
  destruct i as [|i]; cbn [flat_map].
  - injection Hi as ->. rewrite Nat.mul_0_r. cbn [drop].
    now apply take_app_length'.
  - replace (n * S i)%nat with (length (f y) + n * i)%nat by (rewrite Hlen; lia).
    rewrite drop_app_add. now apply IH.
Qed.

(** ** C1 *)

(** C1: decoding what the bytes codec encoded gives back the byte
    sequence, whatever bytes it holds; in particular the three bytes
    00 FF 41 come back as they were. *)
Theorem bytes_codec_roundtrip :
  (∀ b : bytes,
     BYTES_CODEC.from_dict (BYTES_CODEC.to_dict b) = Return (VBytes b))
  ∧ BYTES_CODEC.from_dict (BYTES_CODEC.to_dict [x00; xff; x41])
    = Return (VBytes [x00; xff; x41]).
Proof.
  assert (∀ b : bytes,
    BYTES_CODEC.from_dict (BYTES_CODEC.to_dict b) = Return (VBytes b)) as H.
  { intros b. unfold BYTES_CODEC.from_dict, BYTES_CODEC.to_dict, getitem.
    rewrite lookup_singleton_eq. cbn.
    now rewrite latin1_encode_decode. }
  split; [exact H | apply H].
Qed.

(** ** C2 *)

Lemma numpy_to_dict_dtype host a :
  NUMPY_CODEC.to_dict host a !! lit "dtype"
  = Some (VStr (dtype_str host (arr_dtype a))).
Proof. unfold NUMPY_CODEC.to_dict. dict_lookup. Qed.

Lemma numpy_to_dict_shape host a :
  NUMPY_CODEC.to_dict host a !! lit "shape"
  = Some (VList (VInt <$> arr_shape a)).
Proof. unfold NUMPY_CODEC.to_dict. dict_lookup. Qed.

Lemma numpy_from_dict_to_dict host a :
  ndarray_wf a →
  NUMPY_CODEC.from_dict host (NUMPY_CODEC.to_dict host a) = Return (VArray a).
Proof.
  intros (Hd & Hn & Hs & Hlen & Hr).
  unfold NUMPY_CODEC.from_dict, getitem.
  rewrite numpy_to_dict_bytes, numpy_to_dict_dtype, numpy_to_dict_shape.
  cbn [mbind outcome_bind NUMPY_CODEC.np_dtype_of].
  rewrite np_dtype_str by exact Hd.
  cbn [mbind outcome_bind NUMPY_CODEC.frombuffer_of].
  rewrite frombuffer_tobytes by exact Hr.
  cbn [mbind outcome_bind NUMPY_CODEC.reshape_of].
  rewrite ints_fmap, reshape_plain by assumption.
  cbn [arr_data arr_dtype]. rewrite decide_True by exact Hlen.
  cbn. destruct a; reflexivity.
Qed.

(** C2: the array codec writes exactly the keys dtype, shape and
    bytes, with the list of dimensions under shape and the string of
    the element type under dtype (its name when the byte order is
    native), and decoding that dictionary gives back the array: same
    dtype, same shape, same elements. *)
Theorem numpy_codec_roundtrip (host : byteorder) (a : ndarray) :
  ndarray_wf a →
  dom (NUMPY_CODEC.to_dict host a) = {[ lit "dtype"; lit "shape"; lit "bytes" ]}
  ∧ NUMPY_CODEC.to_dict host a !! lit "shape"
    = Some (VList (VInt <$> arr_shape a))
  ∧ NUMPY_CODEC.to_dict host a !! lit "dtype"
    = Some (VStr (dtype_str host (arr_dtype a)))
  ∧ (dt_swapped (arr_dtype a) = false →
     dtype_str host (arr_dtype a) = lit (scalar_name (dt_scalar (arr_dtype a))))
  ∧ NUMPY_CODEC.from_dict host (NUMPY_CODEC.to_dict host a) = Return (VArray a).
Proof.
  intros Hwf. split_and!.
  - unfold NUMPY_CODEC.to_dict.
    rewrite !dom_insert_L, dom_singleton_L. set_solver.
  - apply numpy_to_dict_shape.
  - apply numpy_to_dict_dtype.
  - unfold dtype_str. now intros ->.
  - now apply numpy_from_dict_to_dict.
Qed.

Lemma int64_2x3_wf : ndarray_wf int64_2x3.
Proof.
  unfold ndarray_wf, int64_2x3, dtype_wf, max_ndim, intp_max. cbn.
  split_and!; [discriminate | lia | | reflexivity | ];
    repeat constructor; cbn; lia.
Defined.

Lemma numpy_codec_roundtrip_witness :
  ndarray_wf int64_2x3
  ∧ NUMPY_CODEC.to_dict LittleEndian int64_2x3 !! lit "shape"
    = Some (VList [VInt 2; VInt 3])
  ∧ NUMPY_CODEC.to_dict LittleEndian int64_2x3 !! lit "dtype"
    = Some (VStr (lit "int64"))
  ∧ NUMPY_CODEC.from_dict LittleEndian (NUMPY_CODEC.to_dict LittleEndian int64_2x3)
    = Return (VArray int64_2x3).
Proof.
  pose proof (numpy_codec_roundtrip LittleEndian int64_2x3 int64_2x3_wf)
    as (_ & Hs & Hd & _ & Hr).
  split; [exact int64_2x3_wf|]. split; [exact Hs|]. split; [exact Hd|exact Hr].
Defined.

(** ** C3 *)

(** On a big-endian platform the payload of a native int64 array is
    big-endian: the claim of a little-endian payload whatever the
    platform fails there. *)
Lemma numpy_payload_follows_host :
  NUMPY_CODEC.to_dict BigEndian int64_one !! lit "bytes"
  ≠ Some (VBytes (little_endian_payload int64_one)).
Proof. vm_compute. discriminate. Qed.

(** The same happens on a little-endian platform for an array whose
    dtype is big-endian. *)
Lemma numpy_payload_follows_dtype :
  NUMPY_CODEC.to_dict LittleEndian int64_one_swapped !! lit "bytes"
  = Some (VBytes [x00; x00; x00; x00; x00; x00; x00; x01]).
Proof. vm_compute. reflexivity. Qed.

(** A payload written on a big-endian platform is read differently on
    a little-endian one. *)
Lemma numpy_payload_not_portable :
  NUMPY_CODEC.from_dict LittleEndian (NUMPY_CODEC.to_dict BigEndian int64_one)
  = Return (VArray (NDArray int64 [1] [2 ^ 56])).
Proof. vm_compute. reflexivity. Qed.

(** C3, as the code has it: the payload holds the elements flat in
    row-major order, the element of index [idx] at offset itemsize
    times its row-major position, each element in the byte order of
    the array's dtype, which for a native dtype is the byte order of
    the platform; on a little-endian platform a native array is laid
    out little-endian; and decoding on a platform of the same byte
    order reads the payload back under the same convention. *)
Theorem numpy_payload_layout (host : byteorder) (a : ndarray)
    (idx : list Z) (pos v : Z) :
  ndarray_wf a →
  flat_index (arr_shape a) idx = Some pos →
  ndarray_item a idx = Some v →
  let d := arr_dtype a in
  NUMPY_CODEC.to_dict host a !! lit "bytes" = Some (VBytes (tobytes host a))
  ∧ take (itemsize d) (drop (itemsize d * Z.to_nat pos) (tobytes host a))
    = item_bytes (dtype_order host d) d v
  ∧ (host = LittleEndian → dt_swapped d = false →
     tobytes host a = little_endian_payload a)
  ∧ NUMPY_CODEC.from_dict host (NUMPY_CODEC.to_dict host a) = Return (VArray a).
Proof.
  intros Hwf Hpos Hv d. split_and!.
  - apply numpy_to_dict_bytes.
  - unfold ndarray_item in Hv. rewrite Hpos in Hv. cbn in Hv.
    unfold tobytes. apply flat_map_chunk; [|exact Hv].
    intros y. apply length_item_bytes.
  - intros -> Hn. unfold tobytes, little_endian_payload, dtype_order.
    subst d. now rewrite Hn.
  - now apply numpy_from_dict_to_dict.
Qed.

Lemma numpy_payload_layout_witness :
  ndarray_wf int64_2x3
  ∧ flat_index (arr_shape int64_2x3) [1; 2] = Some 5
  ∧ ndarray_item int64_2x3 [1; 2] = Some 6
  ∧ take 8 (drop 40 (tobytes BigEndian int64_2x3))
    = [x00; x00; x00; x00; x00; x00; x00; x06].
Proof.
  split; [exact int64_2x3_wf|]. split; [reflexivity|]. split; [reflexivity|].
  exact (proj1 (proj2 (numpy_payload_layout BigEndian int64_2x3 [1; 2] 5 6
                         int64_2x3_wf eq_refl eq_refl))).
Defined.

(** ** C8 *)

(** Without the bytes entry the decoder raises the KeyError of the
    failed lookup, not the decode error of the specification. *)
Lemma numpy_missing_bytes_keyerror :
  NUMPY_CODEC.from_dict LittleEndian
    (delete (lit "bytes") (NUMPY_CODEC.to_dict LittleEndian int64_2x3))
  ≠ Raise MalformedCanonicalDict.
Proof. vm_compute. discriminate. Qed.

(** A payload of the wrong length that is still a whole number of
    elements is first reinterpreted by [frombuffer]; the mismatch
    shows only in [reshape]. *)
Lemma numpy_short_payload_reinterpreted :
  let dct := <[ lit "bytes" := VBytes (tobytes LittleEndian int64_one) ]>
               (NUMPY_CODEC.to_dict LittleEndian int64_2x3) in
  frombuffer LittleEndian (tobytes LittleEndian int64_one) int64
  = Return int64_one
  ∧ NUMPY_CODEC.from_dict LittleEndian dct = Raise ValueError.
Proof. vm_compute. split; reflexivity. Qed.

(** C8, as the code has it: on a dictionary without the bytes entry
    the decoder raises Python's KeyError for that key, and on a
    payload whose length does not fit dtype and shape it raises
    numpy's ValueError; no array is returned. *)
Theorem numpy_from_dict_malformed (host : byteorder) (dct : dict) :
  malformed_array_dict host dct →
  NUMPY_CODEC.from_dict host dct
  = Raise (match dct !! lit "bytes" with
           | None => KeyError (lit "bytes")
           | Some _ => ValueError
           end).
Proof.
  intros [Hnone | (b & s & d & dims & Hb & Hs & Hd & Hsh & Hn & Hdims & Hlen)].
  - unfold NUMPY_CODEC.from_dict, getitem. now rewrite Hnone.
  - unfold NUMPY_CODEC.from_dict, getitem. rewrite Hb, Hs.
    cbn [mbind outcome_bind NUMPY_CODEC.np_dtype_of]. rewrite Hd.
    cbn [mbind outcome_bind NUMPY_CODEC.frombuffer_of]. unfold frombuffer.
    case_decide as Hmod; [|reflexivity].
    cbn [mbind outcome_bind]. rewrite Hsh.
    cbn [mbind outcome_bind NUMPY_CODEC.reshape_of].
    rewrite ints_fmap, reshape_plain by assumption.
    cbn [arr_data]. rewrite length_read_items.
    rewrite decide_False; [reflexivity|].
    intros Heq. apply Hlen. rewrite <- Heq, <- Nat2Z.inj_mul. f_equal.
    pose proof (itemsize_pos d).
    pose proof (Nat.div_mod (length b) (itemsize d) ltac:(lia)). lia.
Qed.

Lemma numpy_from_dict_malformed_witness :
  let dct := delete (lit "bytes") (NUMPY_CODEC.to_dict LittleEndian int64_2x3) in
  malformed_array_dict LittleEndian dct
  ∧ NUMPY_CODEC.from_dict LittleEndian dct = Raise (KeyError (lit "bytes")).
Proof.
  intros dct.
  assert (malformed_array_dict LittleEndian dct) as H
    by (left; vm_compute; reflexivity).
  split; [exact H|].
  exact (numpy_from_dict_malformed LittleEndian dct H).
Defined.

(** ** The method resolution order *)

Lemma total_length_app (l1 l2 : list (list pyclass)) :
  total_length (l1 ++ l2) = (total_length l1 + total_length l2)%nat.
Proof.
  induction l1 as [|s l1 IH]; [reflexivity|].
  cbn [app total_length foldr]. fold (total_length (l1 ++ l2)).
  fold (total_length l1). lia.
Qed.

Lemma total_length_cons (s : list pyclass) (l : list (list pyclass)) :
  total_length (s :: l) = (length s + total_length l)%nat.
Proof. reflexivity. Qed.

Lemma total_length_live (seqs : list (list pyclass)) :
  total_length (filter (λ s, s ≠ []) seqs) = total_length seqs.
Proof.
  induction seqs as [|s seqs IH]; [reflexivity|].
  destruct s as [|x s].
  - rewrite filter_cons_False by (intros H; now apply H).
    now rewrite total_length_cons, IH.
  - rewrite filter_cons_True by done.
    now rewrite !total_length_cons, IH.
Qed.

Lemma length_drop_head (c : pyclass) (s : list pyclass) :
  (length (drop_head c s) ≤ length s)%nat.
Proof. destruct s as [|x s]; cbn; [lia|]. case_decide; cbn; lia. Qed.

Lemma total_length_drop_head (c : pyclass) (seqs : list (list pyclass)) :
  (total_length (map (drop_head c) seqs) ≤ total_length seqs)%nat.
Proof.
  induction seqs as [|s seqs IH]; [reflexivity|].
  cbn [map]. rewrite !total_length_cons.
  pose proof (length_drop_head c s). lia.
Qed.

(** A candidate is the head of one of the sequences searched. *)
Lemma find_candidate_head (todo seqs : list (list pyclass)) (c : pyclass) :
  find_candidate todo seqs = Some c → ∃ s, (c :: s) ∈ todo.
Proof.
  induction todo as [|[|x s] todo IH]; cbn [find_candidate]; intros H.
  - discriminate.
  - destruct (IH H) as [s' Hs']. exists s'. now right.
  - destruct (in_a_tail x seqs).
    + destruct (IH H) as [s' Hs']. exists s'. now right.
    + injection H as ->. exists s. now left.
Qed.

Lemma total_length_drop_head_lt (c : pyclass) (s : list pyclass)
    (seqs : list (list pyclass)) :
  (c :: s) ∈ seqs →
  (total_length (map (drop_head c) seqs) < total_length seqs)%nat.
Proof.
  induction seqs as [|s' seqs IH]; intros Hin; [by apply elem_of_nil in Hin|].
  cbn [map]. rewrite !total_length_cons.
  apply elem_of_cons in Hin as [<- | Hin].
  - pose proof (total_length_drop_head c seqs).
    cbn [drop_head]. rewrite decide_True by reflexivity. cbn [length]. lia.
  - pose proof (length_drop_head c s'). specialize (IH Hin). lia.
Qed.

(** Fuel beyond the total length of the sequences changes nothing:
    [c3_merge] gives [None] only when no candidate is left, never for
    lack of fuel in [mro]. *)
Lemma c3_merge_fuel (fuel fuel' : nat) (seqs : list (list pyclass)) :
  (total_length seqs ≤ fuel)%nat → (total_length seqs ≤ fuel')%nat →
  c3_merge fuel seqs = c3_merge fuel' seqs.
Proof.
  revert fuel' seqs. induction fuel as [|fuel IH]; intros fuel' seqs H1 H2.
  - destruct fuel'; cbn [c3_merge]; [reflexivity|].
    destruct (filter (λ s, s ≠ []) seqs) as [|s live] eqn:Hlive; [reflexivity|].
    pose proof (total_length_live seqs) as Ht. rewrite Hlive in Ht.
    assert (s ≠ []) as Hs.
    { assert (s ∈ filter (λ s, s ≠ []) seqs) as Hin by (rewrite Hlive; now left).
      now apply list_elem_of_filter in Hin as [? _]. }
    destruct s; [done|]. rewrite total_length_cons in Ht. cbn in Ht. lia.
  - destruct fuel' as [|fuel'].
    + cbn [c3_merge].
      destruct (filter (λ s, s ≠ []) seqs) as [|s live] eqn:Hlive; [reflexivity|].
      pose proof (total_length_live seqs) as Ht. rewrite Hlive in Ht.
      assert (s ≠ []) as Hs.
      { assert (s ∈ filter (λ s, s ≠ []) seqs) as Hin by (rewrite Hlive; now left).
        now apply list_elem_of_filter in Hin as [? _]. }
      destruct s; [done|]. rewrite total_length_cons in Ht. cbn in Ht. lia.
    + cbn [c3_merge].
      destruct (filter (λ s, s ≠ []) seqs) as [|s live] eqn:Hlive; [reflexivity|].
      destruct (find_candidate (s :: live) (s :: live)) as [c|] eqn:Hc;
        [|reflexivity].
      cbn [mbind option_bind].
      apply find_candidate_head in Hc as [s' Hs'].
      pose proof (total_length_drop_head_lt c s' _ Hs') as Hlt.
      pose proof (total_length_live seqs) as Ht. rewrite Hlive in Ht.
      rewrite (IH fuel'); [reflexivity | lia | lia].
Qed.

(** Whatever occurs in one of the sequences occurs in their merge. *)
Lemma c3_merge_complete (fuel : nat) (seqs : list (list pyclass))
    (l : list pyclass) :
  c3_merge fuel seqs = Some l →
  ∀ s x, s ∈ seqs → x ∈ s → x ∈ l.
Proof.
  revert seqs l. induction fuel as [|fuel IH]; intros seqs l Hm s x Hs Hx;
    cbn [c3_merge] in Hm;
    destruct (filter (λ s, s ≠ []) seqs) as [|s0 live] eqn:Hlive.
  - assert (s ∈ filter (λ s, s ≠ []) seqs) as Hin.
    { apply list_elem_of_filter. split; [|exact Hs]. intros ->.
      by apply elem_of_nil in Hx. }
    rewrite Hlive in Hin. by apply elem_of_nil in Hin.
  - discriminate.
  - assert (s ∈ filter (λ s, s ≠ []) seqs) as Hin.
    { apply list_elem_of_filter. split; [|exact Hs]. intros ->.
      by apply elem_of_nil in Hx. }
    rewrite Hlive in Hin. by apply elem_of_nil in Hin.
  - destruct (find_candidate (s0 :: live) (s0 :: live)) as [c|]; [|discriminate].
    cbn [mbind option_bind] in Hm.
    destruct (c3_merge fuel (map (drop_head c) (s0 :: live))) as [rest|] eqn:Hrest;
      [|discriminate].
    cbn in Hm. injection Hm as <-.
    destruct (decide (x = c)) as [->|Hne]; [now left|]. right.
    apply (IH _ _ Hrest (drop_head c s)).
    + apply list_elem_of_fmap. exists s. split; [reflexivity|].
      rewrite <- Hlive. apply list_elem_of_filter. split; [|exact Hs].
      intros ->. by apply elem_of_nil in Hx.
    + destruct s as [|y s]; [by apply elem_of_nil in Hx|]. cbn [drop_head].
      case_decide as Hy; [|exact Hx]. subst y.
      apply elem_of_cons in Hx as [?|?]; [done|assumption].
Qed.

Lemma mro_unfold (c : pyclass) :
  mro c =
    ms ← mapM mro (bases c);
    rest ← c3_merge (total_length (ms ++ [bases c])) (ms ++ [bases c]);
    Some (c :: rest).
Proof.
  destruct c as [m q bs]. cbn [mro bases].
  match goal with
  | |- mbind _ ?lhs = _ => assert (lhs = mapM mro bs) as ->; [|reflexivity]
  end.
  induction bs as [|b l IHl]; [reflexivity|].
  cbn. rewrite IHl. reflexivity.
Qed.

(** The linearisation of a class holds all the classes it inherits
    from. *)
Lemma mro_ancestor (c b : pyclass) :
  strict_subclass c b → ∀ l, mro c = Some l → b ∈ l.
Proof.
  induction 1 as [c b Hb | c b' b Hb' _ IH]; intros l Hl;
    rewrite mro_unfold in Hl;
    destruct (mapM mro (bases c)) as [ms|] eqn:Hms; try discriminate;
    cbn [mbind option_bind] in Hl;
    destruct (c3_merge _ (ms ++ [bases c])) as [rest|] eqn:Hrest;
    try discriminate; cbn in Hl; injection Hl as <-; right.
  - apply (c3_merge_complete _ _ _ Hrest (bases c)); [|exact Hb].
    apply elem_of_app. right. now left.
  - apply mapM_Some in Hms.
    apply list_elem_of_lookup in Hb' as [i Hi].
    destruct (Forall2_lookup_l _ _ _ _ _ Hms Hi) as (m' & Hm' & Hmro).
    apply (c3_merge_complete _ _ _ Hrest m').
    + apply elem_of_app. left. apply list_elem_of_lookup. eauto.
    + now apply IH.
Qed.

(** ** Running computations over the store *)

Lemma bind_run {A B} (m : M A) (f : A → M B) (w : world) :
  (m ≫= f) w =
    match m w with
    | (Return a, w') => f a w'
    | (Raise e, w') => (Raise e, w')
    | (NotModelled, w') => (NotModelled, w')
    end.
Proof. reflexivity. Qed.

Lemma dict_copy_run (w : world) (r : positive) (d : dict) :
  heap w !! r = Some d →
  dict_copy r w =
    (Return (fresh (dom (heap w))),
     World (<[fresh (dom (heap w)) := d]> (heap w)) (trace w)).
Proof. intros H. unfold dict_copy, load, alloc. rewrite bind_run, H. reflexivity. Qed.

Lemma dict_contains_run (w : world) (r : positive) (d : dict) (k : str) :
  heap w !! r = Some d →
  dict_contains r k w = (Return (contains d k), w).
Proof. intros H. unfold dict_contains, load. rewrite bind_run, H. reflexivity. Qed.

Lemma dict_pop_run (w : world) (r : positive) (d : dict) (k : str) (v : value) :
  heap w !! r = Some d → d !! k = Some v →
  dict_pop r k w = (Return v, World (<[r := delete k d]> (heap w)) (trace w)).
Proof.
  intros H Hk. unfold dict_pop, load. rewrite bind_run, H; cbv beta iota.
  rewrite Hk. reflexivity.
Qed.

Lemma dict_del_run (w : world) (r : positive) (d : dict) (k : str) (v : value) :
  heap w !! r = Some d → d !! k = Some v →
  dict_del r k w = (Return (), World (<[r := delete k d]> (heap w)) (trace w)).
Proof.
  intros H Hk. unfold dict_del, load. rewrite bind_run, H; cbv beta iota.
  rewrite Hk. reflexivity.
Qed.

Section collaborators.

Context (get_class : value → value → outcome pyclass).
Context (construct : pyclass → dict → outcome value).

Lemma call_get_class_run (w : world) (m q : value) :
  call_get_class get_class m q w =
    (get_class m q, World (heap w) (trace w ++ [EGetClass m q])).
Proof.
  unfold call_get_class, emit, lift. rewrite bind_run. cbv beta iota.
  destruct (get_class m q); reflexivity.
Qed.

Lemma call_construct_run (w : world) (cls : pyclass)
    (r : positive) (d : dict) :
  heap w !! r = Some d →
  call_construct construct cls r w =
    (construct cls d, World (heap w) (trace w ++ [EConstruct cls d])).
Proof.
  intros H. unfold call_construct, load, emit, lift.
  rewrite bind_run, H; cbv beta iota. rewrite bind_run. cbv beta iota.
  destruct (construct cls d); reflexivity.
Qed.

(** Literal keys are told apart by computation. *)
Ltac key_neq := let H := fresh in intros H; vm_compute in H; discriminate H.

(** ** Frame lemmas: what a computation leaves alone *)

Lemma agree_refl (w : world) : agree w w.
Proof. now intros l _. Qed.

Lemma keeps_ret (w0 : world) {A} (a : A) : keeps w0 (mret a).
Proof. intros w H. exact H. Qed.

Lemma keeps_lift (w0 : world) {A} (o : outcome A) : keeps w0 (lift o).
Proof. intros w H. exact H. Qed.

Lemma keeps_bind (w0 : world) {A B} (m : M A) (f : A → M B) :
  keeps w0 m → (∀ a, keeps w0 (f a)) → keeps w0 (m ≫= f).
Proof.
  intros Hm Hf w Hw. rewrite bind_run. specialize (Hm w Hw).
  destruct (m w) as [[a| |] w']; cbn [snd] in *; [now apply Hf | exact Hm..].
Qed.

Lemma keeps_load (w0 : world) (r : positive) : keeps w0 (load r).
Proof. intros w H. unfold load. now destruct (heap w !! r). Qed.

Lemma keeps_emit (w0 : world) (e : event) : keeps w0 (emit e).
Proof. intros w H. exact H. Qed.

Lemma keeps_store (w0 : world) (r : positive) (d : dict) :
  r ∉ dom (heap w0) → keeps w0 (store r d).
Proof.
  intros Hr w H l Hl. cbn. rewrite lookup_insert_ne; [now apply H|].
  intros ->. now apply Hr.
Qed.

Lemma keeps_dict_contains (w0 : world) (r : positive) (k : str) :
  keeps w0 (dict_contains r k).
Proof.
  apply keeps_bind; [apply keeps_load | intros; apply keeps_ret].
Qed.

Lemma keeps_dict_pop (w0 : world) (r : positive) (k : str) :
  r ∉ dom (heap w0) → keeps w0 (dict_pop r k).
Proof.
  intros Hr. apply keeps_bind; [apply keeps_load|]. intros d.
  destruct (d !! k); [|apply keeps_lift].
  apply keeps_bind; [now apply keeps_store | intros; apply keeps_ret].
Qed.

Lemma keeps_dict_del (w0 : world) (r : positive) (k : str) :
  r ∉ dom (heap w0) → keeps w0 (dict_del r k).
Proof.
  intros Hr. apply keeps_bind; [apply keeps_load|]. intros d.
  destruct (d !! k); [now apply keeps_store | apply keeps_lift].
Qed.

Lemma keeps_call_get_class (w0 : world) (m q : value) :
  keeps w0 (call_get_class get_class m q).
Proof.
  apply keeps_bind; [apply keeps_emit | intros; apply keeps_lift].
Qed.

Lemma keeps_call_construct (w0 : world) (cls : pyclass) (r : positive) :
  keeps w0 (call_construct construct cls r).
Proof.
  apply keeps_bind; [apply keeps_load|]. intros d.
  apply keeps_bind; [apply keeps_emit | intros; apply keeps_lift].
Qed.

Create HintDb frame.
#[local] Hint Resolve keeps_ret keeps_lift keeps_load keeps_emit keeps_store
  keeps_dict_contains keeps_dict_pop keeps_dict_del keeps_call_get_class
  keeps_call_construct : frame.

Ltac frame :=
  repeat first
    [ progress intros
    | apply keeps_bind
    | match goal with |- keeps _ (match ?x with _ => _ end) => destruct x end
    | solve [ auto with frame ] ].

(** A copy is a new object: taking it leaves the existing ones alone,
    and so does whatever is then done with the copy [k]. *)
Lemma keeps_after_copy {A} (w : world) (dct : positive) (k : positive → M A) :
  (∀ r, r ∉ dom (heap w) → keeps w (k r)) →
  agree w ((dict_copy dct ≫= k) w).2.
Proof.
  intros Hk. rewrite bind_run. unfold dict_copy, load, alloc.
  rewrite bind_run. destruct (heap w !! dct) as [d|]; [|apply agree_refl].
  pose proof (is_fresh (dom (heap w))) as Hfresh.
  apply Hk; [exact Hfresh|].
  intros l Hl. cbn. rewrite lookup_insert_ne; [reflexivity|].
  intros <-. now apply Hfresh.
Qed.

Lemma default_from_dict_agree (w : world) (dct : positive) :
  agree w (default_from_dict get_class construct dct w).2.
Proof.
  unfold default_from_dict. apply keeps_after_copy. frame.
Qed.

Lemma inherited_is_my_dict_agree (w : world) (dct : positive)
    (cls : pyclass) :
  agree w (inherited_is_my_dict get_class dct cls w).2.
Proof.
  unfold inherited_is_my_dict. rewrite bind_run.
  unfold dict_contains at 1, load. rewrite bind_run.
  destruct (heap w !! dct) as [d|] eqn:Hd; [|apply agree_refl].
  cbv beta iota. unfold mret at 1, M_ret. cbv beta iota.
  rewrite bind_run.
  destruct (contains d (lit "__module__")).
  - rewrite (dict_contains_run _ _ d) by exact Hd. cbv beta iota.
    destruct (contains d (lit "__class__")); cbn [negb];
      [|apply agree_refl].
    apply keeps_after_copy. frame.
  - apply agree_refl.
Qed.

(** ** C9 *)

(** Popping from the caller's own dictionary would change it: the
    frame property of the two functions is due to the copy. *)
Lemma dict_pop_changes_caller :
  let d : dict := {[ lit "__module__" := VStr (lit "m") ]} in
  let w := World {[ 1%positive := d ]} [] in
  heap (dict_pop 1%positive (lit "__module__") w).2 !! 1%positive
  = Some (∅ : dict).
Proof. vm_compute. reflexivity. Qed.

(** C9: [default_from_dict] and [inherited_is_my_dict] leave the
    dictionary they are given as it was, with the same keys and
    values, whatever they return or raise; the keys are popped from a
    copy. *)
Theorem codecs_leave_caller_dict (w : world) (dct : positive) (d : dict)
    (cls : pyclass) :
  heap w !! dct = Some d →
  heap (default_from_dict get_class construct dct w).2 !! dct = Some d
  ∧ heap (inherited_is_my_dict get_class dct cls w).2 !! dct = Some d.
Proof.
  intros Hd.
  assert (dct ∈ dom (heap w)) as Hin by (apply elem_of_dom; eauto).
  split.
  - rewrite <- Hd. now apply default_from_dict_agree.
  - rewrite <- Hd. now apply inherited_is_my_dict_agree.
Qed.

(** ** C10 *)

Lemma all_in_missing (expected : list str) (d : dict) (k : str) :
  k ∈ expected → d !! k = None → all_in expected d = false.
Proof.
  intros Hk Hnone. unfold all_in.
  destruct (forallb (contains d) expected) eqn:Hall; [|reflexivity].
  rewrite forallb_forall in Hall.
  apply list_elem_of_In in Hk. specialize (Hall k Hk).
  unfold contains in Hall. apply bool_decide_eq_true in Hall.
  rewrite Hnone in Hall. now destruct Hall.
Qed.

Lemma contains_none (d : dict) (k : str) : d !! k = None → contains d k = false.
Proof.
  intros H. unfold contains. rewrite H. apply bool_decide_eq_false.
  now intros [? ?].
Qed.

Lemma contains_some (d : dict) (k : str) (v : value) :
  d !! k = Some v → contains d k = true.
Proof.
  intros H. unfold contains. rewrite H. apply bool_decide_eq_true. eauto.
Qed.

Lemma inherited_is_my_dict_guard (w : world) (dct : positive) (d : dict)
    (cls : pyclass) :
  heap w !! dct = Some d →
  d !! lit "__module__" = None ∨ d !! lit "__class__" = None →
  inherited_is_my_dict get_class dct cls w = (Return false, w).
Proof.
  intros Hd Hmiss. unfold inherited_is_my_dict.
  rewrite bind_run, (dict_contains_run _ _ d) by exact Hd. cbv beta iota.
  rewrite bind_run.
  destruct (contains d (lit "__module__")) eqn:Hm.
  - rewrite (dict_contains_run _ _ d) by exact Hd. cbv beta iota.
    destruct Hmiss as [H|H]; apply contains_none in H; [congruence|].
    rewrite H. reflexivity.
  - reflexivity.
Qed.

(** C10: on a dictionary without the module key or without the class
    key [inherited_is_my_dict] returns False, raises nothing and never
    calls the class resolver (store and call trace are as before); the
    unit and quantity predicates return False on a dictionary that
    lacks one of their keys. *)
Theorem dict_predicates_total_on_missing_keys (w : world) (dct : positive)
    (d : dict) (cls : pyclass) :
  heap w !! dct = Some d →
  (d !! lit "__module__" = None ∨ d !! lit "__class__" = None →
   inherited_is_my_dict get_class dct cls w = (Return false, w))
  ∧ (∀ k, k ∈ [lit "pint_unit_registry"; lit "unit_name"; lit ":is_custom:"] →
          d !! k = None → is_openff_unit_dict d = Return false)
  ∧ (∀ k, k ∈ [lit "pint_unit_registry"; lit "magnitude"; lit ":is_custom:";
               lit "unit"] →
          d !! k = None → is_openff_quantity_dict d = Return false).
Proof.
  intros Hd. split_and!.
  - now apply inherited_is_my_dict_guard.
  - intros k Hk Hnone. unfold is_openff_unit_dict.
    now rewrite (all_in_missing _ _ k Hk Hnone).
  - intros k Hk Hnone. unfold is_openff_quantity_dict.
    now rewrite (all_in_missing _ _ k Hk Hnone).
Qed.

(** ** C4 and C5 *)

(** What [inherited_is_my_dict] does once both keys are there. *)
Lemma inherited_is_my_dict_run (w : world) (dct : positive) (d : dict)
    (cls : pyclass) (m q : value) :
  heap w !! dct = Some d →
  d !! lit "__module__" = Some m →
  d !! lit "__class__" = Some q →
  (inherited_is_my_dict get_class dct cls w).1 =
    match get_class m q with
    | Return stored =>
        match mro stored with
        | Some linear => Return (bool_decide (cls ∈ linear))
        | None => NotModelled
        end
    | Raise e => Raise e
    | NotModelled => NotModelled
    end.
Proof.
  intros Hd Hm Hq. unfold inherited_is_my_dict.
  rewrite bind_run, (dict_contains_run _ _ d) by exact Hd. cbv beta iota.
  rewrite (contains_some _ _ _ Hm).
  rewrite bind_run, (dict_contains_run _ _ d) by exact Hd. cbv beta iota.
  rewrite (contains_some _ _ _ Hq). cbn [negb].
  rewrite bind_run, (dict_copy_run _ _ d) by exact Hd. cbv beta iota.
  set (r := fresh (dom (heap w))).
  rewrite bind_run, (dict_pop_run _ r d _ m);
    [|cbn; apply lookup_insert_eq | exact Hm]. cbv beta iota.
  rewrite bind_run, (dict_pop_run _ r (delete (lit "__module__") d) _ q);
    [|cbn; apply lookup_insert_eq
     |rewrite lookup_delete_ne by key_neq; exact Hq]. cbv beta iota.
  rewrite bind_run, call_get_class_run.
  destruct (get_class m q) as [stored| |]; [|reflexivity..].
  destruct (mro stored); reflexivity.
Qed.

(** C5: a dictionary whose module and class keys resolve to a class
    that inherits from the settings base class is accepted by the
    settings codec's dict predicate. *)
Theorem settings_codec_accepts_subclasses (SettingsBaseModel : pyclass)
    (w : world) (dct : positive) (d : dict) (m q : value) (stored : pyclass) :
  heap w !! dct = Some d →
  d !! lit "__module__" = Some m →
  d !! lit "__class__" = Some q →
  get_class m q = Return stored →
  is_Some (mro stored) →
  strict_subclass stored SettingsBaseModel →
  (SETTINGS_CODEC.is_my_dict get_class SettingsBaseModel dct w).1 = Return true.
Proof.
  intros Hd Hm Hq Hres [linear Hmro] Hsub. unfold SETTINGS_CODEC.is_my_dict.
  rewrite (inherited_is_my_dict_run _ _ d _ m q) by assumption.
  rewrite Hres, Hmro. f_equal. apply bool_decide_eq_true.
  now apply (mro_ancestor stored).
Qed.

(** C4: on a dictionary with the module, class and custom-marker keys
    [default_from_dict] calls the resolver on the module and the class
    name, then calls the resolved class with the entries of the
    dictionary other than these three keys as keyword arguments, and
    returns what the class returns (a failure of the resolver is passed
    on); the keyword arguments hold none of the three keys and every
    other key with its value. *)
Theorem default_from_dict_constructs (w : world) (dct : positive) (d : dict)
    (m q : value) :
  heap w !! dct = Some d →
  d !! lit "__module__" = Some m →
  d !! lit "__class__" = Some q →
  is_Some (d !! lit ":is_custom:") →
  let kwargs :=
    delete (lit ":is_custom:") (delete (lit "__class__")
      (delete (lit "__module__") d)) in
  let run := default_from_dict get_class construct dct w in
  run.1 = (cls ← get_class m q; construct cls kwargs)
  ∧ trace run.2 =
      trace w ++ EGetClass m q ::
        match get_class m q with
        | Return cls => [EConstruct cls kwargs]
        | _ => []
        end
  ∧ (∀ k, k ∈ bookkeeping_keys → kwargs !! k = None)
  ∧ (∀ k, k ∉ bookkeeping_keys → kwargs !! k = d !! k).
Proof.
  intros Hd Hm Hq [c Hc] kwargs run.
  assert (run.1 = (cls ← get_class m q; construct cls kwargs)
          ∧ trace run.2 =
              trace w ++ EGetClass m q ::
                match get_class m q with
                | Return cls => [EConstruct cls kwargs]
                | _ => []
                end) as [Hres Htrace].
  { subst run. unfold default_from_dict.
    rewrite bind_run, (dict_copy_run _ _ d) by exact Hd. cbv beta iota.
    set (r := fresh (dom (heap w))).
    rewrite bind_run, (dict_pop_run _ r d _ m);
      [|cbn; apply lookup_insert_eq | exact Hm]. cbv beta iota.
    rewrite bind_run, (dict_pop_run _ r (delete (lit "__module__") d) _ q);
      [|cbn; apply lookup_insert_eq
       |rewrite lookup_delete_ne by key_neq; exact Hq]. cbv beta iota.
    rewrite bind_run,
      (dict_del_run _ r (delete (lit "__class__") (delete (lit "__module__") d)) _ c);
      [|cbn; apply lookup_insert_eq
       |rewrite !lookup_delete_ne by key_neq; exact Hc]. cbv beta iota.
    rewrite bind_run, call_get_class_run.
    destruct (get_class m q) as [cls| |]; [|split; reflexivity..].
    rewrite (call_construct_run _ _ _ kwargs) by (cbn; apply lookup_insert_eq).
    cbn [fst snd trace mbind outcome_bind]. rewrite <- app_assoc.
    split; reflexivity. }
  split_and!; [exact Hres | exact Htrace | |].
  - intros k Hk. subst kwargs. unfold bookkeeping_keys in Hk.
    rewrite !elem_of_cons in Hk. rewrite !lookup_delete.
    repeat case_decide; try reflexivity.
    destruct Hk as [->| [->| [->|Hk]]]; try done. by apply elem_of_nil in Hk.
  - intros k Hk. subst kwargs. unfold bookkeeping_keys in Hk.
    rewrite !elem_of_cons in Hk.
    rewrite !lookup_delete_ne; [reflexivity|intros <-; apply Hk; auto..].
Qed.

End collaborators.

(** ** C6 *)





(** ** Witnesses for the store theorems *)

Lemma settings_world_dict : heap settings_world !! 1%positive = Some settings_dict.
Proof. reflexivity. Defined.

Lemma codecs_leave_caller_dict_witness :
  heap settings_world !! 1%positive = Some settings_dict
  ∧ heap (default_from_dict sample_get_class sample_construct 1%positive
            settings_world).2 !! 1%positive = Some settings_dict
  ∧ heap (inherited_is_my_dict sample_get_class 1%positive settings_base
            settings_world).2 !! 1%positive = Some settings_dict.
Proof.
  split; [exact settings_world_dict|].
  exact (codecs_leave_caller_dict sample_get_class sample_construct
           settings_world 1%positive settings_dict settings_base
           settings_world_dict).
Defined.

Lemma dict_predicates_total_on_missing_keys_witness :
  heap settings_world !! 1%positive = Some settings_dict
  ∧ is_openff_unit_dict settings_dict = Return false
  ∧ is_openff_quantity_dict settings_dict = Return false.
Proof.
  pose proof (dict_predicates_total_on_missing_keys sample_get_class
                settings_world 1%positive settings_dict settings_base
                settings_world_dict) as (_ & Hu & Hq).
  split; [exact settings_world_dict|]. split.
  - apply (Hu (lit "unit_name")); [|reflexivity].
    apply elem_of_cons; right; apply elem_of_cons; left; reflexivity.
  - apply (Hq (lit "magnitude")); [|reflexivity].
    apply elem_of_cons; right; apply elem_of_cons; left; reflexivity.
Defined.

Lemma thermo_settings_subclass : strict_subclass thermo_settings settings_base.
Proof. apply subclass_base. apply elem_of_cons; left; reflexivity. Defined.

Lemma settings_codec_accepts_subclasses_witness :
  strict_subclass thermo_settings settings_base
  ∧ (SETTINGS_CODEC.is_my_dict sample_get_class settings_base 1%positive
       settings_world).1 = Return true.
Proof.
  split; [exact thermo_settings_subclass|].
  apply (settings_codec_accepts_subclasses sample_get_class settings_base
           settings_world 1%positive settings_dict
           (VStr (lit "gufe.settings.models")) (VStr (lit "ThermoSettings"))
           thermo_settings);
    [reflexivity | reflexivity | reflexivity | reflexivity
    | eexists; vm_compute; reflexivity | exact thermo_settings_subclass].
Defined.

Lemma default_from_dict_constructs_witness :
  (default_from_dict sample_get_class sample_construct 1%positive
     settings_world).1
  = Return (VInstance thermo_settings [(lit "temperature", VInt 300)])
  ∧ trace (default_from_dict sample_get_class sample_construct 1%positive
             settings_world).2
    = [EGetClass (VStr (lit "gufe.settings.models")) (VStr (lit "ThermoSettings"));
       EConstruct thermo_settings {[ lit "temperature" := VInt 300 ]}].
Proof.
  pose proof (default_from_dict_constructs sample_get_class sample_construct
                settings_world 1%positive settings_dict
                (VStr (lit "gufe.settings.models")) (VStr (lit "ThermoSettings"))
                eq_refl eq_refl eq_refl
                (ex_intro _ (VBool true) eq_refl)) as (Hr & Ht & _).
  split; [rewrite Hr | rewrite Ht]; vm_compute; reflexivity.
Defined.

(** ** C7 *)


(** So is a settings dictionary that has a field for each key of a
    unit: the settings predicate and the unit predicate accept it. *)
Lemma settings_and_unit_both_match :
  let d : dict :=
    <[ lit "pint_unit_registry" := VStr (lit "openff_units") ]>
      (<[ lit "unit_name" := VStr (lit "kelvin") ]> settings_dict) in
  count_true
    (dict_matches sample_get_class sample_classes
       (World {[ 1%positive := d ]} []) 1%positive) = 2%nat.
Proof. vm_compute. reflexivity. Qed.






(** * Further properties of the module *)

(** Literal keys are told apart by computation. *)
Ltac keys_differ :=
  let H := fresh in intros H; vm_compute in H; discriminate H.

(** ** The bytes codec *)

Lemma latin1_encode_inv (s : str) (b : bytes) :
  latin1_encode s = Return b → s = latin1_decode b.
Proof.
  revert b. induction s as [|c s IH]; intros b H; cbn in H.
  - now injection H as <-.
  - destruct (Byte.of_N c) as [x|] eqn:Hx; [|discriminate].
    destruct (latin1_encode s) as [bs| |]; try discriminate.
    cbn in H. injection H as <-. cbn.
    apply Byte.to_of_N in Hx. rewrite Hx. f_equal. now apply IH.
Qed.

Lemma latin1_encode_length (s : str) (b : bytes) :
  latin1_encode s = Return b → length b = length s.
Proof.
  intros H. apply latin1_encode_inv in H as ->.
  unfold latin1_decode. now rewrite length_map.
Qed.

Lemma latin1_encode_total (s : str) :
  Forall (λ c, (c < 256)%N) s → ∃ b, latin1_encode s = Return b.
Proof.
  induction 1 as [|c s Hc _ [b IH]]; [now exists []|].
  cbn. destruct (Byte.of_N c) as [x|] eqn:Hx.
  - rewrite IH. now exists (x :: b).
  - apply Byte.of_N_None_iff in Hx. lia.
Qed.

Lemma latin1_encode_fails (s : str) :
  ¬ Forall (λ c, (c < 256)%N) s → latin1_encode s = Raise UnicodeEncodeError.
Proof.
  induction s as [|c s IH]; intros H; [now destruct H|].
  cbn. destruct (Byte.of_N c) as [x|] eqn:Hx; [|reflexivity].
  rewrite IH; [reflexivity|]. intros Hs. apply H. constructor; [|exact Hs].
  apply Byte.to_of_N in Hx. pose proof (Byte.to_N_bounded x). lia.
Qed.

(** X1: whatever the bytes codec decodes to a byte sequence carries
    the latin-1 text of that sequence, so encoding the result gives
    the same entry back. *)
Theorem bytes_from_dict_inverts (dct : dict) (b : bytes) :
  BYTES_CODEC.from_dict dct = Return (VBytes b) →
  dct !! lit "latin-1" = BYTES_CODEC.to_dict b !! lit "latin-1".
Proof.
  unfold BYTES_CODEC.from_dict, BYTES_CODEC.to_dict, getitem.
  rewrite lookup_singleton_eq.
  destruct (dct !! lit "latin-1") as [[]|]; cbn; try discriminate.
  destruct (latin1_encode s) as [bs| |] eqn:Hs; cbn; try discriminate.
  intros H. injection H as <-. apply latin1_encode_inv in Hs. now subst.
Qed.

Lemma bytes_from_dict_inverts_witness :
  BYTES_CODEC.from_dict latin1_abc_dict = Return (VBytes [x00; xff; x41])
  ∧ latin1_abc_dict !! lit "latin-1"
    = BYTES_CODEC.to_dict [x00; xff; x41] !! lit "latin-1".
Proof.
  assert (BYTES_CODEC.from_dict latin1_abc_dict
          = Return (VBytes [x00; xff; x41])) as H by (vm_compute; reflexivity).
  split; [exact H|].
  exact (bytes_from_dict_inverts latin1_abc_dict [x00; xff; x41] H).
Defined.

(** X2: on a text entry the bytes codec returns one byte per code
    point when every code point is below 256 and raises
    UnicodeEncodeError otherwise; it never returns a shortened
    sequence. *)
Theorem bytes_from_dict_text (dct : dict) (s : str) :
  dct !! lit "latin-1" = Some (VStr s) →
  (Forall (λ c, (c < 256)%N) s →
   ∃ b, BYTES_CODEC.from_dict dct = Return (VBytes b) ∧ length b = length s)
  ∧ (¬ Forall (λ c, (c < 256)%N) s →
     BYTES_CODEC.from_dict dct = Raise UnicodeEncodeError).
Proof.
  intros Hd. unfold BYTES_CODEC.from_dict, getitem. rewrite Hd.
  cbn [mbind outcome_bind]. split.
  - intros Hs. destruct (latin1_encode_total s Hs) as [b Hb].
    exists b. rewrite Hb. split; [reflexivity|].
    now apply latin1_encode_length.
  - intros Hs. now rewrite latin1_encode_fails.
Qed.

Lemma bytes_from_dict_text_witness :
  BYTES_CODEC.from_dict wide_text_dict = Raise UnicodeEncodeError.
Proof.
  assert (wide_text_dict !! lit "latin-1" = Some (VStr [65%N; 256%N])) as Hd
    by (vm_compute; reflexivity).
  apply (bytes_from_dict_text wide_text_dict [65%N; 256%N] Hd).
  intros H. apply List.Forall_cons_iff in H as [_ H].
  apply List.Forall_cons_iff in H as [H _].
  vm_compute in H. discriminate H.
Defined.

(** ** The array codec *)

Lemma le_value_range (b : bytes) : 0 ≤ le_value b < 256 ^ Z.of_nat (length b).
Proof.
  induction b as [|x b IH]; [cbn; lia|].
  cbn [le_value length]. rewrite Nat2Z.inj_succ, Z.pow_succ_r by lia.
  pose proof (Z_of_byte_range x). lia.
Qed.

Lemma word_value_range (o : byteorder) (b : bytes) (n : nat) :
  (length b ≤ n)%nat → 0 ≤ word_value o b < 256 ^ Z.of_nat n.
Proof.
  intros Hn.
  assert (256 ^ Z.of_nat (length b) ≤ 256 ^ Z.of_nat n)
    by (apply Z.pow_le_mono_r; lia).
  destruct o; cbn [word_value].
  - pose proof (le_value_range b). lia.
  - pose proof (le_value_range (rev b)) as H'. rewrite length_rev in H'. lia.
Qed.

(** Whatever bytes an element is read from, its value fits its type. *)
Lemma item_value_in_range (o : byteorder) (d : dtype) (b : bytes) :
  (length b ≤ itemsize d)%nat → in_range d (item_value o d b).
Proof.
  intros Hlen. unfold in_range, item_value.
  pose proof (itemsize_pos d) as Hpos.
  destruct (scalar_kind (dt_scalar d)) eqn:Hk;
    try (rewrite <- pow256; now apply word_value_range).
  - (* signed *)
    pose proof (word_value_range o b _ Hlen) as Hu. rewrite pow256 in Hu.
    set (bits := 8 * Z.of_nat (itemsize d)) in *.
    assert (2 ^ bits = 2 * 2 ^ (bits - 1)) as Hp.
    { rewrite <- Z.pow_succ_r by lia. f_equal. lia. }
    case_decide; lia.
  - (* complex *)
    set (c := (itemsize d / 2)%nat) in *.
    assert (itemsize d = (c + c)%nat) as Hc.
    { subst c. unfold itemsize. destruct d as [s sw]; destruct s;
        try discriminate; reflexivity. }
    pose proof (word_value_range o (take c b) c) as H1.
    pose proof (word_value_range o (drop c b) c) as H2.
    rewrite length_take in H1. rewrite length_drop in H2.
    specialize (H1 ltac:(lia)). specialize (H2 ltac:(lia)).
    rewrite Hc, Nat2Z.inj_add.
    replace (8 * (Z.of_nat c + Z.of_nat c))
      with (8 * Z.of_nat c + 8 * Z.of_nat c) by lia.
    rewrite Z.pow_add_r, <- pow256 by lia.
    set (p := 256 ^ Z.of_nat c) in *. nia.
Qed.

Lemma read_items_in_range (o : byteorder) (d : dtype) (n : nat) (b : bytes) :
  Forall (in_range d) (read_items o d n b).
Proof.
  revert b. induction n as [|n IH]; intros b; cbn [read_items]; constructor.
  - apply item_value_in_range. rewrite length_take. lia.
  - apply IH.
Qed.

Lemma assoc_elem {A} (k : str) (t : list (str * A)) (a : A) :
  assoc k t = Some a → (k, a) ∈ t.
Proof.
  induction t as [|[k' a'] t IH]; cbn; [discriminate|].
  case_decide as Hk; intros H.
  - injection H as <-. subst. now left.
  - right. now apply IH.
Qed.

Lemma dtype_table_wf (host : byteorder) :
  Forall (λ e, dtype_wf e.2) (dtype_table host).
Proof.
  destruct host; unfold dtype_table, all_scalars; cbn [flat_map app];
    repeat constructor; unfold dtype_wf; cbn; intros; congruence.
Qed.

Lemma np_dtype_wf (host : byteorder) (s : str) (d : dtype) :
  np_dtype host s = Return d → dtype_wf d.
Proof.
  unfold np_dtype. destruct (assoc s (dtype_table host)) as [d'|] eqn:Ha;
    [|discriminate]. intros H. injection H as <-.
  apply assoc_elem in Ha.
  pose proof (dtype_table_wf host) as Hwf. rewrite Forall_forall in Hwf.
  apply list_elem_of_In in Ha. exact (Hwf _ Ha).
Qed.

Lemma product_nonneg (dims : list Z) : Forall (λ n, 0 ≤ n) dims → 0 ≤ product dims.
Proof.
  unfold product. induction 1 as [|n dims Hn _ IH]; cbn; [lia | nia].
Qed.

(** With one open dimension filled in by [x], the product is [x]
    times the product of the given dimensions. *)
Lemma product_fill (x : Z) (dims : list Z) :
  Forall (λ n, -1 ≤ n) dims →
  product (map (λ n, if decide (n = -1) then x else n) dims)
  = x ^ Z.of_nat (length (filter (λ n, n = -1) dims))
    * product (filter (λ n, 0 ≤ n) dims).
Proof.
  induction 1 as [|n dims Hn _ IH]; [reflexivity|].
  cbn [map product foldr]. fold (product (map (λ n, if decide (n = -1) then x else n) dims)).
  rewrite IH. destruct (decide (n = -1)) as [->|Hne].
  - rewrite filter_cons_True by reflexivity.
    rewrite filter_cons_False by lia.
    cbn [length]. rewrite Nat2Z.inj_succ, Z.pow_succ_r by lia. ring.
  - rewrite filter_cons_False by exact Hne.
    rewrite filter_cons_True by lia.
    cbn [product foldr]. fold (product (filter (λ n, 0 ≤ n) dims)). ring.
Qed.

Lemma reshape_wf (f a : ndarray) (dims : list Z) :
  dtype_wf (arr_dtype f) →
  Forall (in_range (arr_dtype f)) (arr_data f) →
  Z.of_nat (length (arr_data f)) < intp_max →
  reshape f dims = Return a →
  ndarray_wf a.
Proof.
  intros Hd Hr Hsize. unfold reshape.
  case_decide as Hn; [discriminate|].
  case_decide as Hdims; [|discriminate].
  assert (Forall (λ n, -1 ≤ n) dims) as Hge
    by (revert Hdims; apply List.Forall_impl; intros; lia).
  pose proof (product_fill (Z.of_nat (length (arr_data f))
                            / product (filter (λ n, 0 ≤ n) dims)) dims Hge) as Hfill.
  set (size := Z.of_nat (length (arr_data f))) in *.
  set (known := product (filter (λ n, 0 ≤ n) dims)) in *.
  assert (0 ≤ known) as Hknown.
  { apply product_nonneg. apply Forall_forall. intros n Hin.
    now apply list_elem_of_In, list_elem_of_filter in Hin as [? _]. }
  destruct (length (filter (λ n, n = -1) dims)) as [|[|k]] eqn:Hcount;
    [| |discriminate].
  - (* no open dimension *)
    case_decide as Heq; [|discriminate]. intros H. injection H as <-.
    assert (Forall (λ n, 0 ≤ n < intp_max) dims) as Hpos.
    { apply Forall_forall. intros n Hin.
      rewrite Forall_forall in Hdims. specialize (Hdims n Hin).
      destruct (decide (n = -1)) as [->|]; [|lia].
      exfalso. apply list_elem_of_In in Hin.
      assert (-1 ∈ filter (λ n, n = -1) dims) as Hf
        by (apply list_elem_of_filter; done).
      destruct (filter (λ n, n = -1) dims); [by apply elem_of_nil in Hf|discriminate]. }
    unfold ndarray_wf; cbn [arr_dtype arr_shape arr_data].
    split_and!; try assumption; [lia|].
    unfold known in Heq.
    rewrite (filter_all (λ n, 0 ≤ n)) in Heq; [exact Heq|].
    revert Hpos; apply List.Forall_impl; intros; lia.
  - (* one open dimension *)
    case_decide as Hbad; [discriminate|]. intros H. injection H as <-.
    assert (0 < known) by lia.
    assert (size mod known = 0) as Hmod by lia.
    assert (0 ≤ size / known < intp_max) as Hq.
    { split; [apply Z.div_pos; lia|].
      apply Z.le_lt_trans with size; [|exact Hsize].
      apply Z.div_le_upper_bound; nia. }
    unfold ndarray_wf; cbn [arr_dtype arr_shape arr_data].
    split_and!; try assumption.
    + rewrite length_map. lia.
    + apply Forall_forall. intros n Hin. apply in_map_iff in Hin as (n0 & <- & Hin0).
      rewrite Forall_forall in Hdims. specialize (Hdims n0 Hin0).
      case_decide; lia.
    + rewrite Hfill. change (Z.of_nat 1) with 1. rewrite Z.pow_1_r.
      pose proof (Z.div_mod size known ltac:(lia)). nia.
Qed.

Lemma frombuffer_wf (host : byteorder) (b : bytes) (d : dtype) (f : ndarray) :
  frombuffer host b d = Return f →
  arr_dtype f = d
  ∧ Forall (in_range d) (arr_data f)
  ∧ (length (arr_data f) ≤ length b)%nat.
Proof.
  unfold frombuffer. case_decide; [|discriminate].
  intros H'. injection H' as <-. cbn [arr_dtype arr_data].
  split_and!; [reflexivity | apply read_items_in_range |].
  rewrite length_read_items. pose proof (itemsize_pos d).
  apply Nat.Div0.div_le_upper_bound. nia.
Qed.

(** X3: every array the array codec returns is well formed, whatever
    dictionary it was given: the byte-order flag of the dtype is
    consistent, the dimensions are non-negative, their product is the
    number of elements (also when one dimension was left open as -1),
    and every element fits the element type. *)
Theorem numpy_from_dict_wf (host : byteorder) (dct : dict) (b : bytes)
    (a : ndarray) :
  dct !! lit "bytes" = Some (VBytes b) →
  Z.of_nat (length b) < intp_max →
  NUMPY_CODEC.from_dict host dct = Return (VArray a) →
  ndarray_wf a.
Proof.
  intros Hb Hlen. unfold NUMPY_CODEC.from_dict, getitem. rewrite Hb.
  cbn [mbind outcome_bind].
  destruct (dct !! lit "dtype") as [name|]; [|discriminate].
  cbn [mbind outcome_bind].
  destruct (NUMPY_CODEC.np_dtype_of host name) as [d| |] eqn:Hd; try discriminate.
  cbn [mbind outcome_bind NUMPY_CODEC.frombuffer_of].
  destruct (frombuffer host b d) as [f| |] eqn:Hf; try discriminate.
  cbn [mbind outcome_bind].
  destruct (dct !! lit "shape") as [shape|]; [|discriminate].
  cbn [mbind outcome_bind].
  destruct (NUMPY_CODEC.reshape_of f shape) as [a'| |] eqn:Ha; try discriminate.
  cbn. intros H. injection H as ->.
  destruct name; try discriminate. cbn in Hd. apply np_dtype_wf in Hd.
  apply frombuffer_wf in Hf as (Hfd & Hfr & Hfl). subst d.
  assert (∀ dims, reshape f dims = Return a → ndarray_wf a) as Hre.
  { intros dims. apply reshape_wf; [assumption..|lia]. }
  destruct shape; try discriminate; cbn in Ha.
  - now apply (Hre [z]).
  - destruct (NUMPY_CODEC.ints l) as [dims|]; [|discriminate]. now apply (Hre dims).
Qed.

Lemma numpy_from_dict_wf_witness :
  NUMPY_CODEC.from_dict LittleEndian open_shape_dict = Return (VArray int64_2x3)
  ∧ ndarray_wf int64_2x3.
Proof.
  assert (NUMPY_CODEC.from_dict LittleEndian open_shape_dict
          = Return (VArray int64_2x3)) as H by (vm_compute; reflexivity).
  split; [exact H|].
  apply (numpy_from_dict_wf LittleEndian open_shape_dict
           (tobytes LittleEndian int64_2x3) int64_2x3);
    [vm_compute; reflexivity | vm_compute; reflexivity | exact H].
Defined.

(** X4: the array codec looks the keys up in the order bytes, dtype,
    shape, and reads the buffer before it looks at the shape: with the
    payload present, a missing dtype is the KeyError reported; a
    payload that is not a whole number of elements is a ValueError
    even when the shape is missing too; and a missing shape is
    reported only for a payload that could be read. *)
Theorem numpy_from_dict_key_order (host : byteorder) (dct : dict) (b : bytes) :
  dct !! lit "bytes" = Some (VBytes b) →
  (dct !! lit "dtype" = None →
   NUMPY_CODEC.from_dict host dct = Raise (KeyError (lit "dtype")))
  ∧ (∀ s d,
       dct !! lit "dtype" = Some (VStr s) → np_dtype host s = Return d →
       ((length b mod itemsize d)%nat ≠ 0%nat →
        NUMPY_CODEC.from_dict host dct = Raise ValueError)
       ∧ ((length b mod itemsize d)%nat = 0%nat →
          dct !! lit "shape" = None →
          NUMPY_CODEC.from_dict host dct = Raise (KeyError (lit "shape")))).
Proof.
  intros Hb. unfold NUMPY_CODEC.from_dict, getitem. rewrite Hb.
  cbn [mbind outcome_bind]. split.
  - now intros ->.
  - intros s d -> Hd. cbn [mbind outcome_bind NUMPY_CODEC.np_dtype_of].
    rewrite Hd. cbn [mbind outcome_bind NUMPY_CODEC.frombuffer_of].
    unfold frombuffer. split.
    + intros Hmod. now rewrite decide_False.
    + intros Hmod ->. now rewrite decide_True.
Qed.

Lemma numpy_from_dict_key_order_witness :
  ragged_dict !! lit "shape" = None
  ∧ NUMPY_CODEC.from_dict LittleEndian ragged_dict = Raise ValueError.
Proof.
  split; [vm_compute; reflexivity|].
  refine (proj1 (proj2 (numpy_from_dict_key_order LittleEndian ragged_dict
                          [x01; x02; x03; x04; x05; x06; x07] _)
                   (lit "int64") int64 _ _) _);
    [vm_compute; reflexivity.. | vm_compute; discriminate].
Defined.

Lemma fmap_VInt_inj (l1 l2 : list Z) : VInt <$> l1 = VInt <$> l2 → l1 = l2.
Proof.
  revert l2. induction l1 as [|x l1 IH]; intros [|y l2] H; try discriminate;
    [reflexivity|]. cbn in H. injection H as -> H. f_equal. now apply IH.
Qed.

(** X5: the dictionary the array codec writes for a well-formed array
    is never malformed: it has the bytes entry, and the length of the
    payload is the element size times the product of the shape. *)
Theorem numpy_to_dict_not_malformed (host : byteorder) (a : ndarray) :
  ndarray_wf a →
  ¬ malformed_array_dict host (NUMPY_CODEC.to_dict host a)
  ∧ Z.of_nat (length (tobytes host a))
    = Z.of_nat (itemsize (arr_dtype a)) * product (arr_shape a).
Proof.
  intros (Hd & Hn & Hs & Hlen & Hr).
  assert (Z.of_nat (length (tobytes host a))
          = Z.of_nat (itemsize (arr_dtype a)) * product (arr_shape a)) as Hpay.
  { rewrite length_tobytes, Nat2Z.inj_mul, Hlen. lia. }
  split; [|exact Hpay].
  intros [Hnone | (b & s & d & dims & Hb & Hs' & Hd' & Hsh & _ & _ & Hne)].
  - rewrite numpy_to_dict_bytes in Hnone. discriminate.
  - rewrite numpy_to_dict_bytes in Hb. injection Hb as <-.
    rewrite numpy_to_dict_dtype in Hs'. injection Hs' as <-.
    rewrite numpy_to_dict_shape in Hsh. injection Hsh as Hsh.
    apply fmap_VInt_inj in Hsh as <-.
    rewrite np_dtype_str in Hd' by exact Hd. injection Hd' as <-.
    now apply Hne.
Qed.

Lemma numpy_to_dict_not_malformed_witness :
  ndarray_wf int64_2x3
  ∧ Z.of_nat (length (tobytes BigEndian int64_2x3)) = 48.
Proof.
  split; [exact int64_2x3_wf|].
  exact (proj2 (numpy_to_dict_not_malformed BigEndian int64_2x3 int64_2x3_wf)).
Defined.

(** The bytes of an element depend on the dtype only through the
    element type. *)
Lemma item_bytes_scalar (o : byteorder) (d d' : dtype) (v : Z) :
  dt_scalar d = dt_scalar d' → item_bytes o d v = item_bytes o d' v.
Proof. unfold item_bytes, itemsize. now intros ->. Qed.

Lemma word_bytes_one (o o' : byteorder) (v : Z) :
  word_bytes o 1 v = word_bytes o' 1 v.
Proof. destruct o, o'; reflexivity. Qed.

Lemma item_bytes_one (o o' : byteorder) (d : dtype) (v : Z) :
  itemsize d = 1%nat → item_bytes o d v = item_bytes o' d v.
Proof.
  unfold item_bytes, itemsize. destruct d as [s sw]; destruct s; cbn;
    try discriminate; intros _; apply word_bytes_one.
Qed.

(** X6: an array of one-byte elements (bool, int8, uint8) written on
    a platform of one byte order is read back unchanged on a platform
    of the other. *)
Theorem numpy_one_byte_portable (host host' : byteorder) (a : ndarray) :
  ndarray_wf a →
  itemsize (arr_dtype a) = 1%nat →
  NUMPY_CODEC.from_dict host' (NUMPY_CODEC.to_dict host a) = Return (VArray a).
Proof.
  intros Hwf Hone.
  assert (NUMPY_CODEC.to_dict host a = NUMPY_CODEC.to_dict host' a) as ->.
  { unfold NUMPY_CODEC.to_dict. destruct Hwf as (Hd & _).
    specialize (Hd Hone). unfold dtype_str. rewrite Hd.
    do 4 f_equal. unfold tobytes.
    apply flat_map_ext. intros v. now apply item_bytes_one. }
  now apply numpy_from_dict_to_dict.
Qed.

Lemma int8_pair_wf : ndarray_wf int8_pair.
Proof.
  unfold ndarray_wf, int8_pair, dtype_wf, max_ndim, intp_max. cbn.
  split_and!; [reflexivity | lia | | reflexivity | ];
    repeat constructor; cbn; lia.
Defined.

Lemma numpy_one_byte_portable_witness :
  ndarray_wf int8_pair
  ∧ NUMPY_CODEC.from_dict LittleEndian (NUMPY_CODEC.to_dict BigEndian int8_pair)
    = Return (VArray int8_pair).
Proof.
  split; [exact int8_pair_wf|].
  exact (numpy_one_byte_portable BigEndian LittleEndian int8_pair
           int8_pair_wf eq_refl).
Defined.

Lemma np_dtype_explicit (host : byteorder) (d : dtype) :
  dtype_wf d → dt_swapped d = true →
  np_dtype (opposite host) (dtype_str host d) = Return (Dtype (dt_scalar d) false).
Proof.
  unfold dtype_wf. destruct d as [s [|]]; [|discriminate]. intros Hwf _.
  destruct host, s; try (discriminate Hwf; reflexivity);
    vm_compute; reflexivity.
Qed.

(** X7: an array whose dtype has the byte order opposite to the
    platform's is written with that order named in the dtype string,
    and a platform of the opposite byte order reads the same shape and
    the same elements, with the dtype now its native one. *)
Theorem numpy_explicit_order_portable (host : byteorder) (a : ndarray) :
  ndarray_wf a →
  dt_swapped (arr_dtype a) = true →
  NUMPY_CODEC.from_dict (opposite host) (NUMPY_CODEC.to_dict host a)
  = Return (VArray (as_native a)).
Proof.
  intros (Hd & Hn & Hs & Hlen & Hr) Hsw.
  unfold NUMPY_CODEC.from_dict, getitem.
  rewrite numpy_to_dict_bytes, numpy_to_dict_dtype, numpy_to_dict_shape.
  cbn [mbind outcome_bind NUMPY_CODEC.np_dtype_of].
  rewrite np_dtype_explicit by assumption.
  cbn [mbind outcome_bind NUMPY_CODEC.frombuffer_of].
  assert (tobytes host a = tobytes (opposite host) (as_native a)) as ->.
  { unfold tobytes, as_native, dtype_order. cbn [arr_dtype arr_data dt_swapped].
    rewrite Hsw. apply flat_map_ext. intros v. now apply item_bytes_scalar. }
  change (Dtype (dt_scalar (arr_dtype a)) false) with (arr_dtype (as_native a)).
  rewrite frombuffer_tobytes by exact Hr.
  cbn [mbind outcome_bind NUMPY_CODEC.reshape_of].
  rewrite ints_fmap, reshape_plain by assumption.
  cbn [arr_data arr_dtype as_native]. rewrite decide_True by exact Hlen.
  reflexivity.
Qed.

Lemma int64_one_swapped_wf : ndarray_wf int64_one_swapped.
Proof.
  unfold ndarray_wf, int64_one_swapped, dtype_wf, max_ndim, intp_max. cbn.
  split_and!; [discriminate | lia | | reflexivity | ];
    repeat constructor; cbn; lia.
Defined.

Lemma numpy_explicit_order_portable_witness :
  ndarray_wf int64_one_swapped
  ∧ NUMPY_CODEC.from_dict BigEndian
      (NUMPY_CODEC.to_dict LittleEndian int64_one_swapped)
    = Return (VArray int64_one).
Proof.
  split; [exact int64_one_swapped_wf|].
  exact (numpy_explicit_order_portable LittleEndian int64_one_swapped
           int64_one_swapped_wf eq_refl).
Defined.

(** ** More on the method resolution order *)






(** ** The settings codec over the store *)

Section settings_codec.

Context (get_class : value → value → outcome pyclass).
Context (construct : pyclass → dict → outcome value).

Lemma dict_pop_missing (w : world) (r : positive) (d : dict) (k : str) :
  heap w !! r = Some d → d !! k = None →
  dict_pop r k w = (Raise (KeyError k), w).
Proof.
  intros H Hk. unfold dict_pop, load, lift. rewrite bind_run, H; cbv beta iota.
  now rewrite Hk.
Qed.

Lemma dict_del_missing (w : world) (r : positive) (d : dict) (k : str) :
  heap w !! r = Some d → d !! k = None →
  dict_del r k w = (Raise (KeyError k), w).
Proof.
  intros H Hk. unfold dict_del, load, lift. rewrite bind_run, H; cbv beta iota.
  now rewrite Hk.
Qed.

Lemma contains_false (d : dict) (k : str) : contains d k = false → d !! k = None.
Proof.
  unfold contains. intros H. apply bool_decide_eq_false in H.
  destruct (d !! k); [|reflexivity]. exfalso. apply H. eauto.
Qed.

Lemma contains_true (d : dict) (k : str) :
  contains d k = true → ∃ v, d !! k = Some v.
Proof.
  unfold contains. intros H. now apply bool_decide_eq_true in H.
Qed.

(** The run of [default_from_dict] on a dictionary that lacks one of
    its three keys. *)
Lemma default_from_dict_raises (w : world) (dct : positive) (d : dict) (k : str) :
  heap w !! dct = Some d →
  first_missing_key d = Some k →
  (default_from_dict get_class construct dct w).1 = Raise (KeyError k)
  ∧ trace (default_from_dict get_class construct dct w).2 = trace w.
Proof.
  intros Hd Hk. unfold first_missing_key in Hk. unfold default_from_dict.
  rewrite bind_run, (dict_copy_run _ _ d) by exact Hd. cbv beta iota.
  set (r := fresh (dom (heap w))).
  destruct (contains d (lit "__module__")) eqn:Hm; cbn [negb] in Hk.
  - apply contains_true in Hm as [m Hm].
    rewrite bind_run, (dict_pop_run _ r d _ m);
      [|cbn; apply lookup_insert_eq | exact Hm]. cbv beta iota.
    destruct (contains d (lit "__class__")) eqn:Hq; cbn [negb] in Hk.
    + apply contains_true in Hq as [q Hq].
      rewrite bind_run, (dict_pop_run _ r (delete (lit "__module__") d) _ q);
        [|cbn; apply lookup_insert_eq
         |rewrite lookup_delete_ne by keys_differ; exact Hq]. cbv beta iota.
      destruct (contains d (lit ":is_custom:")) eqn:Hc; cbn [negb] in Hk;
        [discriminate|]. injection Hk as <-. apply contains_false in Hc.
      rewrite bind_run,
        (dict_del_missing _ r (delete (lit "__class__") (delete (lit "__module__") d)));
        [split; reflexivity | cbn; apply lookup_insert_eq
        | rewrite !lookup_delete_ne by keys_differ; exact Hc].
    + injection Hk as <-. apply contains_false in Hq.
      rewrite bind_run, (dict_pop_missing _ r (delete (lit "__module__") d));
        [split; reflexivity | cbn; apply lookup_insert_eq
        | rewrite lookup_delete_ne by keys_differ; exact Hq].
  - injection Hk as <-. apply contains_false in Hm.
    rewrite bind_run, (dict_pop_missing _ r d);
      [split; reflexivity | cbn; apply lookup_insert_eq | exact Hm].
Qed.

(** X8: on a dictionary that lacks the module key, the class key or
    the custom marker, [default_from_dict] raises the KeyError of the
    first of them that is missing, in that order; it calls neither the
    resolver nor a constructor, and the caller's dictionary keeps its
    entries. *)
Theorem default_from_dict_missing_key (w : world) (dct : positive) (d : dict)
    (k : str) :
  heap w !! dct = Some d →
  first_missing_key d = Some k →
  let run := default_from_dict get_class construct dct w in
  run.1 = Raise (KeyError k)
  ∧ trace run.2 = trace w
  ∧ heap run.2 !! dct = Some d.
Proof.
  intros Hd Hk run.
  destruct (default_from_dict_raises w dct d k Hd Hk) as [H1 H2].
  split_and!; [exact H1 | exact H2 |].
  subst run. rewrite <- Hd. apply default_from_dict_agree.
  apply elem_of_dom. eauto.
Qed.

(** X9: the settings codec's dict predicate does not look for the
    custom marker, its decoder does: a dictionary with the module and
    class keys of a settings subclass and no marker is accepted by
    [is_my_dict], and [from_dict] then raises KeyError for the marker
    without having called the resolver. *)
Theorem settings_accepted_but_not_decoded (SettingsBaseModel : pyclass)
    (w : world) (dct : positive) (d : dict) (m q : value) (stored : pyclass) :
  heap w !! dct = Some d →
  d !! lit "__module__" = Some m →
  d !! lit "__class__" = Some q →
  d !! lit ":is_custom:" = None →
  get_class m q = Return stored →
  is_Some (mro stored) →
  strict_subclass stored SettingsBaseModel →
  (SETTINGS_CODEC.is_my_dict get_class SettingsBaseModel dct w).1 = Return true
  ∧ (SETTINGS_CODEC.from_dict get_class construct dct w).1
    = Raise (KeyError (lit ":is_custom:"))
  ∧ trace (SETTINGS_CODEC.from_dict get_class construct dct w).2 = trace w.
Proof.
  intros Hd Hm Hq Hc Hres [linear Hmro] Hsub. split.
  - unfold SETTINGS_CODEC.is_my_dict.
    rewrite (inherited_is_my_dict_run get_class w dct d _ m q) by assumption.
    rewrite Hres, Hmro. f_equal. apply bool_decide_eq_true.
    now apply (mro_ancestor stored).
  - unfold SETTINGS_CODEC.from_dict.
    apply (default_from_dict_raises w dct d); [exact Hd|].
    unfold first_missing_key.
    rewrite (contains_some _ _ _ Hm), (contains_some _ _ _ Hq),
      (contains_none _ _ Hc). reflexivity.
Qed.


(** X11: when the module and class keys are there and the resolver
    raises, [inherited_is_my_dict] raises that exception; it does not
    answer False. *)
Theorem inherited_is_my_dict_resolver_error (w : world) (dct : positive)
    (d : dict) (cls : pyclass) (m q : value) (e : exn) :
  heap w !! dct = Some d →
  d !! lit "__module__" = Some m →
  d !! lit "__class__" = Some q →
  get_class m q = Raise e →
  (inherited_is_my_dict get_class dct cls w).1 = Raise e.
Proof.
  intros Hd Hm Hq Hres.
  rewrite (inherited_is_my_dict_run get_class w dct d _ m q) by assumption.
  now rewrite Hres.
Qed.

End settings_codec.

Lemma default_from_dict_missing_key_witness :
  first_missing_key unmarked_settings_dict = Some (lit ":is_custom:")
  ∧ (default_from_dict sample_get_class sample_construct 1%positive
       unmarked_settings_world).1 = Raise (KeyError (lit ":is_custom:")).
Proof.
  assert (first_missing_key unmarked_settings_dict = Some (lit ":is_custom:"))
    as Hk by (vm_compute; reflexivity).
  split; [exact Hk|].
  exact (proj1 (default_from_dict_missing_key sample_get_class sample_construct
                  unmarked_settings_world 1%positive unmarked_settings_dict
                  (lit ":is_custom:") eq_refl Hk)).
Defined.

Lemma thermo_settings_mro : is_Some (mro thermo_settings).
Proof. eexists. vm_compute. reflexivity. Defined.

Lemma settings_accepted_but_not_decoded_witness :
  (SETTINGS_CODEC.is_my_dict sample_get_class settings_base 1%positive
     unmarked_settings_world).1 = Return true
  ∧ (SETTINGS_CODEC.from_dict sample_get_class sample_construct 1%positive
       unmarked_settings_world).1 = Raise (KeyError (lit ":is_custom:")).
Proof.
  pose proof (settings_accepted_but_not_decoded sample_get_class sample_construct
                settings_base unmarked_settings_world 1%positive
                unmarked_settings_dict
                (VStr (lit "gufe.settings.models")) (VStr (lit "ThermoSettings"))
                thermo_settings) as H.
  destruct H as (H1 & H2 & _);
    [vm_compute; reflexivity.. | exact thermo_settings_mro
    | exact thermo_settings_subclass | ].
  split; [exact H1 | exact H2].
Defined.


Lemma inherited_is_my_dict_resolver_error_witness :
  (inherited_is_my_dict failing_get_class 1%positive settings_base
     settings_world).1 = Raise AttributeError.
Proof.
  apply (inherited_is_my_dict_resolver_error failing_get_class settings_world
           1%positive settings_dict settings_base
           (VStr (lit "gufe.settings.models")) (VStr (lit "ThermoSettings")));
    vm_compute; reflexivity.
Defined.

(** ** The settings codec: encoding *)

Lemma assoc_fst {A} (k : str) (t : list (str * A)) :
  k ∈ t.*1 → is_Some (assoc k t).
Proof.
  induction t as [|[k' a] t IH]; cbn; intros H; [by apply elem_of_nil in H|].
  case_decide; [eauto|]. apply elem_of_cons in H as [?|?]; [done | now apply IH].
Qed.

Lemma assoc_not_fst {A} (k : str) (t : list (str * A)) :
  k ∉ t.*1 → assoc k t = None.
Proof.
  induction t as [|[k' a] t IH]; cbn; intros H; [reflexivity|].
  case_decide as Hk; [exfalso; apply H; subst; now left|].
  apply IH. intros Hin. apply H. now right.
Qed.

Lemma settings_fold_lookup (fields : list (str * value)) (names : list str)
    (acc : dict) (k : str) :
  foldl (λ d field, match assoc field fields with
                    | Some v => <[field := v]> d
                    | None => d
                    end) acc names !! k
  = if decide (k ∈ names ∧ is_Some (assoc k fields))
    then assoc k fields else acc !! k.
Proof.
  revert acc. induction names as [|n names IH]; intros acc; cbn [foldl].
  - rewrite decide_False; [reflexivity|]. intros [H _]. by apply elem_of_nil in H.
  - rewrite IH. destruct (decide (k ∈ names ∧ is_Some (assoc k fields)))
      as [[Hin Hs]|Hno].
    + rewrite decide_True; [reflexivity|]. split; [now right | exact Hs].
    + destruct (decide (k = n)) as [->|Hne].
      * destruct (assoc n fields) as [v|] eqn:Hv.
        -- rewrite lookup_insert_eq. rewrite decide_True; [reflexivity|].
           split; [now left | eauto].
        -- rewrite decide_False; [reflexivity|]. intros [_ [? ?]]. discriminate.
      * rewrite decide_False.
        -- destruct (assoc n fields); [now rewrite lookup_insert_ne|reflexivity].
        -- intros [Hin Hs]. apply Hno. split; [|exact Hs].
           apply elem_of_cons in Hin as [?|?]; [done|assumption].
Qed.

Lemma settings_to_dict_lookup (c : pyclass) (fields : list (str * value))
    (d : dict) :
  SETTINGS_CODEC.to_dict (VInstance c fields) = Return d →
  ∀ k, d !! k = assoc k fields.
Proof.
  cbn [SETTINGS_CODEC.to_dict]. intros H k. injection H as <-.
  rewrite settings_fold_lookup, lookup_empty.
  case_decide as H; [reflexivity|].
  destruct (decide (k ∈ fields.*1)) as [Hin|Hout].
  - exfalso. apply H. split; [exact Hin | now apply assoc_fst].
  - symmetry. now apply assoc_not_fst.
Qed.

(** X12: the settings codec writes one entry per field of the object,
    holding the value of the field, and no other entry; it adds
    neither the module and class keys nor the custom marker. *)
Theorem settings_to_dict_fields (c : pyclass) (fields : list (str * value)) :
  ∃ d, SETTINGS_CODEC.to_dict (VInstance c fields) = Return d
       ∧ (∀ k, d !! k = assoc k fields)
       ∧ dom d = list_to_set fields.*1.
Proof.
  eexists. split; [reflexivity|].
  pose proof (settings_to_dict_lookup c fields _ eq_refl) as Hlook.
  split; [exact Hlook|].
  apply set_eq. intros k. rewrite elem_of_dom, Hlook, elem_of_list_to_set.
  split.
  - intros Hs. destruct (decide (k ∈ fields.*1)) as [|Hout]; [done|].
    rewrite (assoc_not_fst _ _ Hout) in Hs. now destruct Hs.
  - apply assoc_fst.
Qed.

Section settings_roundtrip.

Context (get_class : value → value → outcome pyclass).
Context (construct : pyclass → dict → outcome value).

(** The run of [default_from_dict] on a dictionary with its three
    keys. *)
Lemma default_from_dict_result (w : world) (dct : positive) (d : dict)
    (m q c : value) :
  heap w !! dct = Some d →
  d !! lit "__module__" = Some m →
  d !! lit "__class__" = Some q →
  d !! lit ":is_custom:" = Some c →
  let kwargs :=
    delete (lit ":is_custom:") (delete (lit "__class__")
      (delete (lit "__module__") d)) in
  (default_from_dict get_class construct dct w).1
  = (cls ← get_class m q; construct cls kwargs)
  ∧ trace (default_from_dict get_class construct dct w).2 =
      trace w ++ EGetClass m q ::
        match get_class m q with
        | Return cls => [EConstruct cls kwargs]
        | _ => []
        end.
Proof.
  intros Hd Hm Hq Hc kwargs. unfold default_from_dict.
  rewrite bind_run, (dict_copy_run _ _ d) by exact Hd. cbv beta iota.
  set (r := fresh (dom (heap w))).
  rewrite bind_run, (dict_pop_run _ r d _ m);
    [|cbn; apply lookup_insert_eq | exact Hm]. cbv beta iota.
  rewrite bind_run, (dict_pop_run _ r (delete (lit "__module__") d) _ q);
    [|cbn; apply lookup_insert_eq
     |rewrite lookup_delete_ne by keys_differ; exact Hq]. cbv beta iota.
  rewrite bind_run,
    (dict_del_run _ r (delete (lit "__class__") (delete (lit "__module__") d)) _ c);
    [|cbn; apply lookup_insert_eq
     |rewrite !lookup_delete_ne by keys_differ; exact Hc]. cbv beta iota.
  rewrite bind_run, call_get_class_run.
  destruct (get_class m q) as [cls| |]; [|split; reflexivity..].
  rewrite (call_construct_run _ _ _ _ kwargs) by (cbn; apply lookup_insert_eq).
  cbn [fst snd trace mbind outcome_bind]. rewrite <- app_assoc.
  split; reflexivity.
Qed.

(** X13: what the settings codec writes cannot be read by its own
    decoder as it is: unless the object has a field called
    [__module__], [from_dict] on the output of [to_dict] raises
    KeyError for the module key. The keys have to be added around it. *)
Theorem settings_codec_needs_bookkeeping (c : pyclass)
    (fields : list (str * value)) (d : dict) (w : world) (dct : positive) :
  SETTINGS_CODEC.to_dict (VInstance c fields) = Return d →
  lit "__module__" ∉ fields.*1 →
  heap w !! dct = Some d →
  (SETTINGS_CODEC.from_dict get_class construct dct w).1
  = Raise (KeyError (lit "__module__")).
Proof.
  intros Hto Hno Hd.
  pose proof (settings_to_dict_lookup c fields d Hto) as Hlook.
  unfold SETTINGS_CODEC.from_dict.
  apply (default_from_dict_raises get_class construct w dct d); [exact Hd|].
  unfold first_missing_key. rewrite contains_none; [reflexivity|].
  rewrite Hlook. now apply assoc_not_fst.
Qed.

Lemma delete_bookkeeping (m q : value) (d : dict) :
  d !! lit "__module__" = None →
  d !! lit "__class__" = None →
  d !! lit ":is_custom:" = None →
  delete (lit ":is_custom:") (delete (lit "__class__")
    (delete (lit "__module__") (with_bookkeeping m q d))) = d.
Proof.
  intros Hm Hq Hc. unfold with_bookkeeping. apply map_eq. intros k.
  rewrite !lookup_delete.
  destruct (decide (lit ":is_custom:" = k)) as [<-|H1]; [now rewrite Hc|].
  destruct (decide (lit "__class__" = k)) as [<-|H2]; [now rewrite Hq|].
  destruct (decide (lit "__module__" = k)) as [<-|H3]; [now rewrite Hm|].
  now rewrite !lookup_insert_ne.
Qed.

(** X14: with the module key, the class key and the custom marker
    added around what [to_dict] wrote, [from_dict] calls the resolved
    class with exactly the fields of the object as keyword arguments,
    provided no field has the name of one of the three keys. *)
Theorem settings_codec_passes_fields (c : pyclass)
    (fields : list (str * value)) (d : dict) (m q : value)
    (w : world) (dct : positive) :
  SETTINGS_CODEC.to_dict (VInstance c fields) = Return d →
  (∀ k, k ∈ bookkeeping_keys → k ∉ fields.*1) →
  heap w !! dct = Some (with_bookkeeping m q d) →
  let run := SETTINGS_CODEC.from_dict get_class construct dct w in
  run.1 = (cls ← get_class m q; construct cls d)
  ∧ trace run.2 =
      trace w ++ EGetClass m q ::
        match get_class m q with
        | Return cls => [EConstruct cls d]
        | _ => []
        end.
Proof.
  intros Hto Hno Hd run.
  pose proof (settings_to_dict_lookup c fields d Hto) as Hlook.
  assert (∀ k, k ∈ bookkeeping_keys → d !! k = None) as Hnone.
  { intros k Hk. rewrite Hlook. apply assoc_not_fst. now apply Hno. }
  assert (d !! lit "__module__" = None) as Hm
    by (apply Hnone; unfold bookkeeping_keys; rewrite !elem_of_cons; auto).
  assert (d !! lit "__class__" = None) as Hq
    by (apply Hnone; unfold bookkeeping_keys; rewrite !elem_of_cons; auto).
  assert (d !! lit ":is_custom:" = None) as Hc
    by (apply Hnone; unfold bookkeeping_keys; rewrite !elem_of_cons; auto).
  pose proof (default_from_dict_result w dct (with_bookkeeping m q d) m q
                (VBool true) Hd) as H.
  rewrite (delete_bookkeeping m q d Hm Hq Hc) in H.
  apply H; unfold with_bookkeeping.
  - apply lookup_insert_eq.
  - rewrite lookup_insert_ne by keys_differ. apply lookup_insert_eq.
  - rewrite !lookup_insert_ne by keys_differ. apply lookup_insert_eq.
Qed.

End settings_roundtrip.

Lemma thermo_to_dict : SETTINGS_CODEC.to_dict thermo_instance = Return thermo_fields.
Proof. vm_compute. reflexivity. Defined.

Lemma settings_codec_needs_bookkeeping_witness :
  SETTINGS_CODEC.to_dict thermo_instance = Return thermo_fields
  ∧ (SETTINGS_CODEC.from_dict sample_get_class sample_construct 1%positive
       thermo_fields_world).1 = Raise (KeyError (lit "__module__")).
Proof.
  split; [exact thermo_to_dict|].
  apply (settings_codec_needs_bookkeeping sample_get_class sample_construct
           thermo_settings [(lit "temperature", VInt 300)] thermo_fields
           thermo_fields_world 1%positive thermo_to_dict);
    [|reflexivity].
  intros H. apply list_elem_of_singleton in H. vm_compute in H. discriminate H.
Defined.

Lemma settings_codec_passes_fields_witness :
  (SETTINGS_CODEC.from_dict sample_get_class sample_construct 1%positive
     settings_world).1 = Return thermo_instance.
Proof.
  assert (∀ k, k ∈ bookkeeping_keys → k ∉ [(lit "temperature", VInt 300)].*1)
    as Hno.
  { intros k Hk Hin. apply list_elem_of_singleton in Hin. subst k.
    unfold bookkeeping_keys in Hk. rewrite !elem_of_cons in Hk.
    destruct Hk as [Hk|[Hk|[Hk|Hk]]];
      [vm_compute in Hk; discriminate Hk.. | by apply elem_of_nil in Hk]. }
  assert (heap settings_world !! 1%positive
          = Some (with_bookkeeping (VStr (lit "gufe.settings.models"))
                    (VStr (lit "ThermoSettings")) thermo_fields)) as Hd
    by (vm_compute; reflexivity).
  destruct (settings_codec_passes_fields sample_get_class sample_construct
              thermo_settings [(lit "temperature", VInt 300)] thermo_fields
              (VStr (lit "gufe.settings.models")) (VStr (lit "ThermoSettings"))
              settings_world 1%positive thermo_to_dict Hno Hd) as [Hrun _].
  rewrite Hrun. vm_compute. reflexivity.
Defined.

(** ** The unit and quantity codecs *)

(** X15: the unit codec accepts the dictionary it writes, and reading
    it gives back the unit whenever the registry parses the text of
    the unit to a quantity of that unit. *)
Theorem unit_codec_roundtrip (registry : str → outcome value) (u : pint_unit)
    (m : magnitude) :
  registry (unit_text u) = Return (VQuantity (Quantity m u)) →
  OPENFF_UNIT_CODEC.is_my_dict (OPENFF_UNIT_CODEC.to_dict u) = Return true
  ∧ OPENFF_UNIT_CODEC.from_dict registry (OPENFF_UNIT_CODEC.to_dict u)
    = Return (VUnit u).
Proof.
  intros Hreg. split.
  - unfold OPENFF_UNIT_CODEC.is_my_dict, OPENFF_UNIT_CODEC.to_dict,
      openff_unit_to_dict.
    generalize (unit_text u). intros; vm_compute; reflexivity.
  - unfold OPENFF_UNIT_CODEC.from_dict, OPENFF_UNIT_CODEC.to_dict,
      openff_unit_from_dict, openff_unit_to_dict, getitem.
    replace (_ !! lit "unit_name") with (Some (VStr (unit_text u)))
      by (symmetry; dict_lookup).
    cbn [mbind outcome_bind]. rewrite Hreg. reflexivity.
Qed.

Lemma unit_codec_roundtrip_witness :
  OPENFF_UNIT_CODEC.from_dict sample_registry
    (OPENFF_UNIT_CODEC.to_dict (q_u gravity))
  = Return (VUnit (q_u gravity)).
Proof.
  exact (proj2 (unit_codec_roundtrip sample_registry (q_u gravity) (MInt 1)
                  eq_refl)).
Defined.

(** X16: neither of the two pint codecs accepts what the other one
    writes: a unit dictionary has no magnitude and a quantity
    dictionary has no unit_name. *)
Theorem unit_and_quantity_dicts_apart (u : pint_unit) (q : quantity) :
  is_openff_quantity_dict (OPENFF_UNIT_CODEC.to_dict u) = Return false
  ∧ is_openff_unit_dict (OPENFF_QUANTITY_CODEC.to_dict q) = Return false.
Proof.
  split.
  - unfold OPENFF_UNIT_CODEC.to_dict, openff_unit_to_dict.
    generalize (unit_text u). intros; vm_compute; reflexivity.
  - unfold OPENFF_QUANTITY_CODEC.to_dict.
    generalize (value_of_magnitude (q_m q)), (q_u q).
    intros; vm_compute; reflexivity.
Qed.

Lemma py_eq_str_true (v : value) (s : str) :
  py_eq_str v s = Return true ↔ v = VStr s.
Proof.
  split.
  - destruct v; cbn; try discriminate. intros H. injection H as H.
    apply bool_decide_eq_true in H. now subst.
  - intros ->. cbn. f_equal. now apply bool_decide_eq_true.
Qed.

Lemma all_in_true (expected : list str) (d : dict) :
  all_in expected d = true ↔ ∀ k, k ∈ expected → is_Some (d !! k).
Proof.
  unfold all_in. rewrite forallb_forall. split.
  - intros H k Hk. apply list_elem_of_In in Hk. specialize (H k Hk).
    unfold contains in H. now apply bool_decide_eq_true in H.
  - intros H k Hk. apply list_elem_of_In in Hk.
    unfold contains. apply bool_decide_eq_true. now apply H.
Qed.

(** X17: the unit predicate returns True exactly on the dictionaries
    that have the keys pint_unit_registry, unit_name and the custom
    marker with the string openff_units under pint_unit_registry, and
    the quantity predicate exactly on those that have
    pint_unit_registry, magnitude, the custom marker and unit with
    that string; the values under the other keys are not looked at. *)
Theorem pint_predicates_characterised (d : dict) :
  (is_openff_unit_dict d = Return true ↔
   d !! lit "pint_unit_registry" = Some (VStr (lit "openff_units"))
   ∧ is_Some (d !! lit "unit_name") ∧ is_Some (d !! lit ":is_custom:"))
  ∧ (is_openff_quantity_dict d = Return true ↔
     d !! lit "pint_unit_registry" = Some (VStr (lit "openff_units"))
     ∧ is_Some (d !! lit "magnitude") ∧ is_Some (d !! lit ":is_custom:")
     ∧ is_Some (d !! lit "unit")).
Proof.
  split.
  - unfold is_openff_unit_dict. split.
    + destruct (all_in _ d) eqn:Hall; [|discriminate].
      rewrite all_in_true in Hall. unfold getitem.
      destruct (d !! lit "pint_unit_registry") as [v|] eqn:Hv; [|discriminate].
      cbn [mbind outcome_bind]. rewrite py_eq_str_true. intros ->.
      split_and!; [reflexivity | apply Hall; set_solver..].
    + intros (Hv & Hn & Hc).
      assert (all_in [lit "pint_unit_registry"; lit "unit_name"; lit ":is_custom:"] d
              = true) as ->.
      { apply all_in_true. intros k Hk. rewrite !elem_of_cons in Hk.
        destruct Hk as [->|[->|[->|Hk]]]; [rewrite Hv; eauto | done | done
                                          | by apply elem_of_nil in Hk]. }
      unfold getitem. rewrite Hv. cbn [mbind outcome_bind].
      now apply py_eq_str_true.
  - unfold is_openff_quantity_dict. split.
    + destruct (all_in _ d) eqn:Hall; [|discriminate].
      rewrite all_in_true in Hall. unfold getitem.
      destruct (d !! lit "pint_unit_registry") as [v|] eqn:Hv; [|discriminate].
      cbn [mbind outcome_bind]. rewrite py_eq_str_true. intros ->.
      split_and!; [reflexivity | apply Hall; set_solver..].
    + intros (Hv & Hm & Hc & Hu).
      assert (all_in [lit "pint_unit_registry"; lit "magnitude";
                      lit ":is_custom:"; lit "unit"] d = true) as ->.
      { apply all_in_true. intros k Hk. rewrite !elem_of_cons in Hk.
        destruct Hk as [->|[->|[->|[->|Hk]]]];
          [rewrite Hv; eauto | done | done | done | by apply elem_of_nil in Hk]. }
      unfold getitem. rewrite Hv. cbn [mbind outcome_bind].
      now apply py_eq_str_true.
Qed.

(** X18: on a dictionary its predicate accepted, the quantity decoder
    finds both of its keys, so its result is the product of the
    magnitude entry and the unit entry. *)
Theorem accepted_quantity_dict_decodes (d : dict) :
  OPENFF_QUANTITY_CODEC.is_my_dict d = Return true →
  ∃ m u, d !! lit "magnitude" = Some m ∧ d !! lit "unit" = Some u
         ∧ OPENFF_QUANTITY_CODEC.from_dict d = py_mul m u.
Proof.
  unfold OPENFF_QUANTITY_CODEC.is_my_dict, is_openff_quantity_dict.
  destruct (all_in _ d) eqn:Hall; [|discriminate]. intros _.
  rewrite all_in_true in Hall.
  destruct (Hall (lit "magnitude")) as [m Hm]; [set_solver|].
  destruct (Hall (lit "unit")) as [u Hu]; [set_solver|].
  exists m, u. split_and!; [assumption..|].
  unfold OPENFF_QUANTITY_CODEC.from_dict, getitem. now rewrite Hm, Hu.
Qed.

Lemma accepted_quantity_dict_decodes_witness :
  OPENFF_QUANTITY_CODEC.is_my_dict (OPENFF_QUANTITY_CODEC.to_dict gravity)
  = Return true
  ∧ ∃ m u, OPENFF_QUANTITY_CODEC.from_dict (OPENFF_QUANTITY_CODEC.to_dict gravity)
           = py_mul m u.
Proof.
  assert (OPENFF_QUANTITY_CODEC.is_my_dict (OPENFF_QUANTITY_CODEC.to_dict gravity)
          = Return true) as H by (vm_compute; reflexivity).
  split; [exact H|].
  destruct (accepted_quantity_dict_decodes _ H) as (m & u & _ & _ & Hf).
  exists m, u. exact Hf.
Defined.

(** ** The path codec *)

Lemma split_slash_plain (p : str) : slash ∉ p → split_slash p = [p].
Proof.
  induction p as [|c p IH]; intros H; [reflexivity|].
  cbn [split_slash]. rewrite decide_False by (intros ->; apply H; now left).
  rewrite IH; [reflexivity|]. intros Hin. apply H. now right.
Qed.

Lemma split_slash_app (p rest : str) :
  slash ∉ p → split_slash (p ++ slash :: rest) = p :: split_slash rest.
Proof.
  induction p as [|c p IH]; intros H; cbn [app split_slash].
  - now rewrite decide_True.
  - rewrite decide_False by (intros ->; apply H; now left).
    rewrite IH; [reflexivity|]. intros Hin. apply H. now right.
Qed.

Lemma split_join_slash (parts : list str) :
  parts ≠ [] → Forall (λ x, slash ∉ x) parts →
  split_slash (join_slash parts) = parts.
Proof.
  intros Hne Hall. induction Hall as [|p parts Hp Hall IH]; [done|].
  destruct parts as [|p' parts]; cbn [join_slash].
  - now apply split_slash_plain.
  - rewrite split_slash_app by exact Hp. f_equal. now apply IH.
Qed.

Lemma split_slash_clean (s : str) : Forall (λ x, slash ∉ x) (split_slash s).
Proof.
  induction s as [|c s IH]; cbn [split_slash].
  - constructor; [|constructor]. intros H. by apply elem_of_nil in H.
  - case_decide as Hc.
    + constructor; [|exact IH]. intros H. by apply elem_of_nil in H.
    + destruct (split_slash s) as [|word words].
      * constructor; [|constructor]. intros H.
        apply list_elem_of_singleton in H. congruence.
      * apply List.Forall_cons_iff in IH as [Hw Hws]. constructor; [|exact Hws].
        intros H. apply elem_of_cons in H as [H|H]; [congruence | now apply Hw].
Qed.

(** Joined components start with no slash. *)
Lemma lstrip_join_slash (parts : list str) :
  Forall (λ x, x ≠ [] ∧ x ≠ dot_text ∧ slash ∉ x) parts →
  lstrip_slash (join_slash parts) = join_slash parts.
Proof.
  intros Hall. destruct Hall as [|p parts (Hne & _ & Hp) _]; [reflexivity|].
  destruct p as [|c p]; [done|].
  assert (c ≠ slash) by (intros ->; apply Hp; now left).
  destruct parts; cbn; now rewrite decide_False.
Qed.

Lemma filter_parts (parts : list str) :
  Forall (λ x, x ≠ [] ∧ x ≠ dot_text ∧ slash ∉ x) parts →
  filter (λ x, x ≠ [] ∧ x ≠ dot_text) parts = parts.
Proof.
  intros H. apply filter_all. revert H. apply List.Forall_impl. tauto.
Qed.

Lemma parse_rel (parts : list str) :
  Forall (λ x, x ≠ [] ∧ x ≠ dot_text ∧ slash ∉ x) parts →
  filter (λ x, x ≠ [] ∧ x ≠ dot_text) (split_slash (join_slash parts)) = parts.
Proof.
  intros H. destruct parts as [|p parts]; [reflexivity|].
  rewrite split_join_slash; [now apply filter_parts | done |].
  revert H. apply List.Forall_impl. tauto.
Qed.

Lemma lstrip_slash_cons (s : str) : lstrip_slash (slash :: s) = lstrip_slash s.
Proof. cbn [lstrip_slash]. now rewrite decide_True. Qed.

Lemma path_parse_str (p : posix_path) : path_wf p → path_parse (path_str p) = p.
Proof.
  destruct p as [root parts]. intros [Hroot Hparts]. cbn [path_root path_parts] in *.
  pose proof (lstrip_join_slash parts Hparts) as Hstrip.
  pose proof (parse_rel parts Hparts) as Hrel.
  unfold path_str, path_parse. cbn [path_root path_parts].
  rewrite !elem_of_cons in Hroot.
  destruct Hroot as [->|[->|[->|Hroot]]]; [| | |by apply elem_of_nil in Hroot].
  - (* relative *)
    cbn [app]. destruct (join_slash parts) as [|c body] eqn:Hbody.
    + destruct Hparts as [|x parts (Hx & _) _]; [reflexivity|].
      exfalso. destruct x; [done|]. destruct parts; discriminate Hbody.
    + assert (c ≠ slash) as Hc.
      { intros ->. cbn in Hstrip. rewrite decide_True in Hstrip by reflexivity.
        assert (length (lstrip_slash body) ≤ length body)%nat as Hlen.
        { clear. induction body as [|c b IH]; cbn; [lia|]. case_decide; cbn; lia. }
        rewrite Hstrip in Hlen. cbn in Hlen. lia. }
      unfold splitroot. rewrite decide_False by exact Hc. now rewrite Hrel.
  - (* one slash *)
    cbn [app]. unfold splitroot. rewrite decide_True by reflexivity.
    rewrite lstrip_slash_cons, Hstrip.
    rewrite decide_False by (cbn [length]; lia). now rewrite Hrel.
  - (* two slashes *)
    cbn [app]. unfold splitroot. rewrite decide_True by reflexivity.
    rewrite !lstrip_slash_cons, Hstrip.
    rewrite decide_True by (cbn [length]; lia). now rewrite Hrel.
Qed.

Lemma path_parse_wf (s : str) : path_wf (path_parse s).
Proof.
  unfold path_parse, path_wf.
  destruct (splitroot s) as [root rel] eqn:Hsplit. cbn [path_root path_parts].
  split.
  - unfold splitroot in Hsplit. destruct s as [|c s].
    + injection Hsplit as <- _. now left.
    + case_decide; [case_decide|]; injection Hsplit as <- _; set_solver.
  - apply Forall_forall. intros x Hx.
    apply list_elem_of_In, list_elem_of_filter in Hx as [[? ?] Hx].
    split_and!; [assumption..|].
    pose proof (split_slash_clean rel) as Hclean.
    rewrite Forall_forall in Hclean. apply Hclean. now apply list_elem_of_In.
Qed.

(** X19: decoding what the path codec wrote for a path gives back the
    path: same root, same components. *)
Theorem path_codec_roundtrip (p : posix_path) :
  path_wf p → PATH_CODEC.from_dict (PATH_CODEC.to_dict p) = Return p.
Proof.
  intros Hwf. unfold PATH_CODEC.from_dict, PATH_CODEC.to_dict, getitem.
  rewrite lookup_singleton_eq. cbn [mbind outcome_bind].
  now rewrite path_parse_str.
Qed.

Lemma tmp_data_txt_wf : path_wf tmp_data_txt.
Proof.
  split; [right; left; reflexivity|]. cbn [path_parts tmp_data_txt].
  assert (∀ x : str, bool_decide (x ≠ [] ∧ x ≠ dot_text ∧ slash ∉ x) = true →
                     x ≠ [] ∧ x ≠ dot_text ∧ slash ∉ x) as Hdec
    by (intros x; apply bool_decide_eq_true).
  apply List.Forall_cons; [|apply List.Forall_cons; [|apply List.Forall_nil]];
    apply Hdec; vm_compute; reflexivity.
Qed.

Lemma path_codec_roundtrip_witness :
  path_wf tmp_data_txt
  ∧ PATH_CODEC.to_dict tmp_data_txt !! lit "path"
    = Some (VStr (lit "/tmp/data.txt"))
  ∧ PATH_CODEC.from_dict (PATH_CODEC.to_dict tmp_data_txt) = Return tmp_data_txt.
Proof.
  split; [exact tmp_data_txt_wf|]. split; [vm_compute; reflexivity|].
  exact (path_codec_roundtrip tmp_data_txt tmp_data_txt_wf).
Defined.

(** X20: whatever string is under the path key, the path codec
    decodes it to a path in normal form (no empty component, no [.]
    component, no slash inside a component), and writing that path
    and decoding again gives the same path: text that differs only by
    doubled slashes, a trailing slash or [.] components decodes to
    one path. *)
Theorem path_from_dict_normal (dct : dict) (s : str) :
  dct !! lit "path" = Some (VStr s) →
  ∃ p, PATH_CODEC.from_dict dct = Return p
       ∧ path_wf p
       ∧ PATH_CODEC.from_dict (PATH_CODEC.to_dict p) = Return p.
Proof.
  intros Hd. exists (path_parse s). split_and!.
  - unfold PATH_CODEC.from_dict, getitem. now rewrite Hd.
  - apply path_parse_wf.
  - unfold PATH_CODEC.from_dict, PATH_CODEC.to_dict, getitem.
    rewrite lookup_singleton_eq. cbn [mbind outcome_bind].
    rewrite path_parse_str; [reflexivity | apply path_parse_wf].
Qed.

Lemma path_from_dict_normal_witness :
  ∃ p, PATH_CODEC.from_dict untidy_path_dict = Return p
       ∧ p = PosixPath [] [lit "a"; lit "b"; lit "c"]
       ∧ PATH_CODEC.from_dict (PATH_CODEC.to_dict p) = Return p.
Proof.
  destruct (path_from_dict_normal untidy_path_dict (lit "a//b/./c/"))
    as (p & Hp & _ & Hround); [vm_compute; reflexivity|].
  exists p. split; [exact Hp|]. split; [|exact Hround].
  vm_compute in Hp. injection Hp as <-. reflexivity.
Defined.

(** ** Protocol.create *)

Lemma fill_defaults_bound (params : list (str * option value)) (bound : dict) :
  (∀ k, k ∈ params.*1 → is_Some (bound !! k)) →
  fill_defaults params bound = Return bound.
Proof.
  induction params as [|[k default] params IH]; intros H; [reflexivity|].
  cbn [fill_defaults]. destruct (H k) as [v Hv]; [now left|].
  rewrite Hv. apply IH. intros k' Hk'. apply H. now right.
Qed.

(** X21: [create] hands [extend_from] to [_create] under the keyword
    extend_from. A [_create] that has no parameter of that name and no
    catch-all for keywords, such as one with the parameters the
    abstract method declares (where the parameter is called
    protocol_result), is never entered: the call raises TypeError
    whatever the arguments. *)
Theorem create_rejected_without_extend_from (_create : pyfunction)
    (self initial final mapping extend_from settings : value) :
  lit "extend_from" ∉ (fn_params _create).*1 →
  fn_var_keyword _create = false →
  Protocol.create _create self initial final mapping extend_from settings
  = Raise TypeError.
Proof.
  intros Hno Hvk. unfold Protocol.create, call_method. rewrite Hvk.
  assert (∀ kwargs bound extra,
            (lit "extend_from", extend_from) ∈ kwargs →
            bind_keywords (fn_params _create).*1 false
              kwargs bound extra = Raise TypeError) as Hbind.
  { induction kwargs as [|[k v] kwargs IH]; intros bound extra Hin;
      [by apply elem_of_nil in Hin|].
    cbn [bind_keywords].
    case_decide as Hk; [|reflexivity].
    destruct (bound !! k); [reflexivity|].
    apply IH. apply elem_of_cons in Hin as [Heq|Hin]; [|exact Hin].
    injection Heq as <- _. done. }
  rewrite Hbind; [reflexivity|]. set_solver.
Qed.

Lemma create_rejected_without_extend_from_witness :
  (fn_params declared_create).*1
  = [lit "initial"; lit "final"; lit "mapping"; lit "protocol_result";
     lit "settings"]
  ∧ Protocol.create declared_create VNone (VInt 1) (VInt 2) VNone VNone VNone
    = Raise TypeError.
Proof.
  split; [reflexivity|].
  apply create_rejected_without_extend_from; [|reflexivity].
  cbn. intros H. rewrite !elem_of_cons in H.
  repeat (destruct H as [H|H]; [vm_compute in H; discriminate H|]).
  by apply elem_of_nil in H.
Defined.

(** X22: a [_create] whose parameters are the five keywords that
    [create] passes is entered with each of them bound to the argument
    [create] received, defaults unused and nothing left over. *)
Theorem create_binds_keywords (_create : pyfunction)
    (self initial final mapping extend_from settings : value) :
  (fn_params _create).*1
  = [lit "initial"; lit "final"; lit "mapping"; lit "extend_from";
     lit "settings"] →
  Protocol.create _create self initial final mapping extend_from settings
  = fn_body _create self
      {[ lit "initial" := initial; lit "final" := final;
         lit "mapping" := mapping; lit "extend_from" := extend_from;
         lit "settings" := settings ]} ∅.
Proof.
  intros Hnames. unfold Protocol.create, call_method. rewrite Hnames.
  set (bound := ({[ lit "initial" := initial; lit "final" := final;
                    lit "mapping" := mapping; lit "extend_from" := extend_from;
                    lit "settings" := settings ]} : dict)).
  assert (bind_keywords
            [lit "initial"; lit "final"; lit "mapping"; lit "extend_from";
             lit "settings"] (fn_var_keyword _create)
            [(lit "initial", initial); (lit "final", final);
             (lit "mapping", mapping); (lit "extend_from", extend_from);
             (lit "settings", settings)] ∅ ∅ = Return (bound, ∅)) as ->.
  { subst bound. destruct (fn_var_keyword _create);
      generalize initial, final, mapping, extend_from, settings;
      intros; vm_compute; reflexivity. }
  cbn [mbind outcome_bind fst snd].
  rewrite fill_defaults_bound; [reflexivity|].
  intros k Hk. rewrite Hnames in Hk. rewrite !elem_of_cons in Hk.
  subst bound.
  destruct Hk as [->|[->|[->|[->|[->|Hk]]]]]; [..|by apply elem_of_nil in Hk];
    eexists; generalize initial, final, mapping, extend_from, settings;
    intros; vm_compute; reflexivity.
Qed.

Lemma create_binds_keywords_witness :
  Protocol.create extend_from_create VNone (VInt 1) (VInt 2) VNone (VInt 7) VNone
  = Return (VInt 7).
Proof.
  rewrite (create_binds_keywords extend_from_create VNone (VInt 1) (VInt 2)
             VNone (VInt 7) VNone eq_refl).
  vm_compute. reflexivity.
Defined.
